(** * Local Food Wastage Management System: the query and mutation layer

    A shallow embedding of [app.py]: the four relations held in the in-memory
    SQLite store, the loader, the reporting queries, the CRUD statements and
    the form handlers of the "Food Listings (CRUD)" and "Claim Food" pages.

    SQL text values are [string]s compared bytewise (SQLite's BINARY
    collation), integers are [Z] with the 64-bit wrap-around and overflow
    written out where the program can meet them, a REAL is a binary64 value
    of [SpecFloat], a NULL produced by an aggregate or by the right side of a
    LEFT JOIN is [None]. *)

From Stdlib Require Import ZArith List String Ascii Bool Lia.
From Stdlib Require Import Permutation Sorted QArith DecimalString.
From Stdlib Require Import SpecFloat.
Import ListNotations.

Local Open Scope Z_scope.

(* ================================================================= *)
(** ** Values *)

(** The range of SQLite's INTEGER and of [numpy.int64]. *)
Definition int64_min : Z := - 2 ^ 63.
Definition int64_max : Z := 2 ^ 63 - 1.

(** An integer as Python holds it.  A number input returns an [int]; a
    value read out of a DataFrame ([row['Provider_ID']], [.iloc[0,0]],
    [.max()]) is a [numpy.int64]. *)
Inductive py_integer :=
| py_int (z : Z)
| numpy_int64 (z : Z).

(** What the id columns written by the forms hold.  The sqlite3 module binds
    an [int] as an INTEGER; a [numpy.int64] is no [int] for it and goes
    through the buffer protocol: the BLOB of its eight bytes. *)
Inductive sql_value :=
| Integer (z : Z)
| Blob (bytes : list Z).

Definition int64_bytes (z : Z) : list Z :=
  map (fun i => (z / 2 ^ (8 * i)) mod 256) [0; 1; 2; 3; 4; 5; 6; 7].

Definition adapt (v : py_integer) : sql_value :=
  match v with
  | py_int z => Integer z
  | numpy_int64 z => Blob (int64_bytes z)
  end.

(** [v = k] in an ON clause, [k] being the INTEGER of the other table's id
    column: a BLOB equals no INTEGER. *)
Definition id_eqb (v : sql_value) (k : Z) : bool :=
  match v with
  | Integer z => z =? k
  | Blob _ => false
  end.

(** The type [to_sql] declares for the integer columns of a table: INTEGER
    for the int64 columns of a DataFrame with rows, TEXT for the object
    columns [read_csv] makes of a file that has a header and no row.  In a
    TEXT column an inserted integer is kept as its decimal text. *)
Inductive affinity := INTEGER | TEXT.

Definition text_of_Z (z : Z) : string := NilZero.string_of_int (Z.to_int z).

(** A cell read back from a DataFrame: a number, the [str] of a TEXT column,
    or [None] for NULL. *)
Inductive cell :=
| cell_int (v : py_integer)
| cell_str (s : string)
| cell_None.

(* ================================================================= *)
(** ** Relations *)

(** Columns are prefixed with the alias the queries use for the table
    ([p.City] is [p_City p], [fl.Food_ID] is [fl_Food_ID fl], ...). *)

Record Provider := mkProvider {
  p_Provider_ID : Z;
  p_Name : string;
  p_Type : string;
  p_City : string;
  p_Contact : string }.

Record Receiver := mkReceiver {
  r_Receiver_ID : Z;
  r_Name : string;
  r_Type : string;
  r_City : string }.

Record FoodListing := mkFoodListing {
  fl_Food_ID : Z;
  fl_Food_Name : string;
  fl_Quantity : Z;
  fl_Expiry_Date : string;
  fl_Provider_ID : sql_value;
  fl_Provider_Type : string;
  fl_Location : string;
  fl_Food_Type : string;
  fl_Meal_Type : string }.

Record Claim := mkClaim {
  c_Claim_ID : Z;
  c_Food_ID : Z;
  c_Receiver_ID : sql_value;
  c_Status : string;
  c_Timestamp : string }.

(** The connection [conn]: four tables.  [DataFrame.to_sql(..., index=False)]
    creates them with plain column declarations, without PRIMARY KEY, UNIQUE
    or FOREIGN KEY clauses, so a table is a list of rows in insertion order
    and no statement of the program can violate a constraint.  The two tables
    the program writes to carry the type declared for their integer columns
    (Food_ID, Quantity and Provider_ID; Claim_ID, Food_ID and
    Receiver_ID). *)
Record store := mkStore {
  providers : list Provider;
  receivers : list Receiver;
  food_listings : list FoodListing;
  claims : list Claim;
  food_listings_affinity : affinity;
  claims_affinity : affinity }.

(* ================================================================= *)
(** ** Calendar values and their text forms *)

Record date := mkDate { year : Z; month : Z; day : Z }.

Record datetime := mkDatetime {
  dt_date : date; hour : Z; minute : Z; second : Z }.

Definition digit (n : Z) : ascii := ascii_of_N (48 + Z.to_N (n mod 10)).

Definition pad2 (n : Z) : string :=
  String (digit (n / 10)) (String (digit n) EmptyString).

Definition pad4 (n : Z) : string :=
  String (digit (n / 1000)) (String (digit (n / 100)) (pad2 n)).

(** [d.strftime('%Y-%m-%d')], for the four-digit years the date widgets
    offer. *)
Definition strftime_ymd (d : date) : string :=
  (pad4 (year d) ++ "-" ++ pad2 (month d) ++ "-" ++ pad2 (day d))%string.

(** [t.strftime('%Y-%m-%d %H:%M:%S')]; it is also [t.isoformat(' ')] for a
    value without microseconds, the text the sqlite3 adapter writes for a
    datetime column of a DataFrame. *)
Definition strftime_ymd_hms (t : datetime) : string :=
  (strftime_ymd (dt_date t) ++ " " ++ pad2 (hour t) ++ ":" ++ pad2 (minute t)
     ++ ":" ++ pad2 (second t))%string.

(** Day number of a proleptic Gregorian date (0 is 1970-01-01) and back: the
    arithmetic behind SQLite's [DATE(x, '+N days')]. *)
Definition days_from_civil (d : date) : Z :=
  let y := if month d <=? 2 then year d - 1 else year d in
  let era := y / 400 in
  let yoe := y - era * 400 in
  let mp := if month d <=? 2 then month d + 9 else month d - 3 in
  let doy := (153 * mp + 2) / 5 + day d - 1 in
  let doe := yoe * 365 + yoe / 4 - yoe / 100 + doy in
  era * 146097 + doe - 719468.

Definition civil_from_days (z : Z) : date :=
  let z := z + 719468 in
  let era := z / 146097 in
  let doe := z - era * 146097 in
  let yoe := (doe - doe / 1460 + doe / 36524 - doe / 146096) / 365 in
  let doy := doe - (365 * yoe + yoe / 4 - yoe / 100) in
  let mp := (5 * doy + 2) / 153 in
  let d := doy - (153 * mp + 2) / 5 + 1 in
  let m := if mp <? 10 then mp + 3 else mp - 9 in
  let y := yoe + era * 400 in
  mkDate (if m <=? 2 then y + 1 else y) m d.

Definition add_days (d : date) (n : Z) : date :=
  civil_from_days (days_from_civil d + n).

(** [DATE('{today_str}', '+{days} days')] where [today_str] is
    [today.strftime('%Y-%m-%d')]: a text value of the form YYYY-MM-DD. *)
Definition sqlite_DATE_plus_days (today : date) (days : Z) : string :=
  strftime_ymd (add_days today days).

(* ================================================================= *)
(** ** Outcomes *)

(** The error kinds of the interface.  [InvalidReference] is the
    "Invalid Food ID" branch of the claim form, [ValidationFailure] the
    "Please fill in all required fields" branch of the add-listing form,
    [IntegrityError] what sqlite3 raises on a constraint violation,
    [LoadFailure] an exception of [init_db], [IntegerOverflow] the
    "integer overflow" error of SQLite's SUM, [TypeError] Python's, raised
    by [str + int]. *)
Inductive error :=
| LoadFailure
| NotFound
| InvalidReference
| ValidationFailure
| IntegrityError
| IntegerOverflow
| TypeError.

Inductive outcome (A : Type) :=
| Success (a : A)
| Failure (e : error).
Arguments Success {A} a.
Arguments Failure {A} e.

(* ================================================================= *)
(** ** SQL building blocks *)

(** [MAX(col)]: NULL over zero rows; over an INTEGER column the greatest
    number, over a TEXT column the last text in bytewise order. *)
Definition sql_max (l : list Z) : option Z :=
  match l with
  | [] => None
  | x :: l' => Some (fold_left Z.max l' x)
  end.

Definition text_max (a b : string) : string := if String.ltb a b then b else a.

Definition sql_max_text (l : list string) : option string :=
  match l with
  | [] => None
  | x :: l' => Some (fold_left text_max l' x)
  end.

(** [SUM(col)] over integers: NULL over zero rows.  SQLite adds the rows
    one by one into a 64-bit total; an addition that leaves the 64-bit range
    makes the statement fail with "integer overflow". *)
Definition fits_int64 (z : Z) : bool := (int64_min <=? z) && (z <=? int64_max).

Fixpoint sum_step (total : Z) (l : list Z) : option Z :=
  match l with
  | [] => Some total
  | x :: l' => if fits_int64 (total + x) then sum_step (total + x) l' else None
  end.

Definition sql_sum (l : list Z) : outcome (option Z) :=
  match l with
  | [] => Success None
  | _ :: _ =>
      match sum_step 0 l with
      | Some total => Success (Some total)
      | None => Failure IntegerOverflow
      end
  end.

(** [COUNT( * )] of the rows a WHERE clause keeps. *)
Definition sql_count {A : Type} (w : A -> bool) (l : list A) : Z :=
  Z.of_nat (List.length (filter w l)).

(** [COUNT(DISTINCT col)]: NULLs are not counted. *)
Fixpoint non_null {A : Type} (l : list (option A)) : list A :=
  match l with
  | [] => []
  | Some a :: l' => a :: non_null l'
  | None :: l' => non_null l'
  end.

Definition count_distinct (l : list (option Z)) : Z :=
  Z.of_nat (List.length (nodup Z.eq_dec (non_null l))).

Definition COALESCE {A : Type} (a b : option A) : option A :=
  match a with
  | Some _ => a
  | None => b
  end.

(** [a JOIN b ON on] and [a LEFT JOIN b ON on]. *)
Definition inner_join {A B : Type} (on : A -> B -> bool)
    (la : list A) (lb : list B) : list (A * B) :=
  flat_map (fun a => map (pair a) (filter (on a) lb)) la.

Definition left_join {A B : Type} (on : A -> B -> bool)
    (la : list A) (lb : list B) : list (A * option B) :=
  flat_map (fun a =>
              match filter (on a) lb with
              | [] => [(a, None)]
              | m => map (fun b => (a, Some b)) m
              end) la.

(** [ORDER BY]: a stable sort for the total preorder [le] of the sort key. *)
Section OrderBy.
Context {A : Type} (le : A -> A -> bool).

Fixpoint insert_sorted (x : A) (l : list A) : list A :=
  match l with
  | [] => [x]
  | y :: l' => if le x y then x :: l else y :: insert_sorted x l'
  end.

Definition order_by (l : list A) : list A :=
  fold_right insert_sorted [] l.
End OrderBy.

(** Sort keys.  Text ascending; a pair of texts ascending, the second breaking
    ties of the first; a pair of counts descending. *)
Definition text_asc2 (a b : string * string) : bool :=
  String.ltb (fst a) (fst b)
  || (String.eqb (fst a) (fst b) && String.leb (snd a) (snd b)).

Definition count_desc2 (a b : Z * Z) : bool :=
  (fst b <? fst a) || ((fst a =? fst b) && (snd b <=? snd a)).

(** The group keys of a [GROUP BY] over text: each distinct key once, in key
    order (NULL first). *)
Definition opt_text_eq_dec (a b : option string) : {a = b} + {a <> b}.
Proof. decide equality. apply String.string_dec. Defined.

Definition opt_text_le (a b : option string) : bool :=
  match a, b with
  | None, _ => true
  | Some _, None => false
  | Some x, Some y => String.leb x y
  end.

Definition opt_text_eqb (a b : option string) : bool :=
  if opt_text_eq_dec a b then true else false.

Definition group_keys (l : list (option string)) : list (option string) :=
  order_by opt_text_le (nodup opt_text_eq_dec l).

(* ================================================================= *)
(** ** The connection monad *)

(** A computation on the global connection: it returns or fails, and leaves
    a store behind in both cases. *)
Definition M (A : Type) : Type := store -> outcome A * store.

Definition ret {A : Type} (a : A) : M A := fun conn => (Success a, conn).

Definition fail {A : Type} (e : error) : M A := fun conn => (Failure e, conn).

Definition bind {A B : Type} (m : M A) (k : A -> M B) : M B :=
  fun conn =>
    match m conn with
    | (Success a, conn') => k a conn'
    | (Failure e, conn') => (Failure e, conn')
    end.

Notation "x <- m ;; k" := (bind m (fun x => k))
  (at level 61, m at next level, right associativity).
Notation "m ;;; k" := (bind m (fun _ => k))
  (at level 61, right associativity).

(** [run_query]: evaluate a SELECT on the connection. *)
Definition run_query {A : Type} (query : store -> A) : M A :=
  fun conn => (Success (query conn), conn).

(** An expression over the connection that can raise. *)
Definition evaluate {A : Type} (expr : store -> outcome A) : M A :=
  fun conn => (expr conn, conn).

(** [execute_dml]: run one INSERT, UPDATE or DELETE and commit.  On tables
    without constraints the statement cannot be refused. *)
Definition execute_dml (stmt : store -> store) : M unit :=
  fun conn => (Success tt, stmt conn).

(* ================================================================= *)
(** ** Storage loader *)

(** Rows of the two DataFrames whose date column went through
    [pd.to_datetime]. *)
Record FoodListing_df := mkFoodListing_df {
  df_Food_ID : Z;
  df_Food_Name : string;
  df_Quantity : Z;
  df_Expiry_Date : datetime;
  df_Provider_ID : Z;
  df_Provider_Type : string;
  df_Location : string;
  df_Food_Type : string;
  df_Meal_Type : string }.

Record Claim_df := mkClaim_df {
  df_Claim_ID : Z;
  df_c_Food_ID : Z;
  df_Receiver_ID : Z;
  df_Status : string;
  df_Timestamp : datetime }.

(** [to_sql] writes a datetime64 column through the datetime adapter,
    [isoformat(' ')]: the stored text is YYYY-MM-DD HH:MM:SS.  It converts
    the int64 columns to Python ints, stored as INTEGERs. *)
Definition to_sql_food_listing (row : FoodListing_df) : FoodListing :=
  {| fl_Food_ID := df_Food_ID row;
     fl_Food_Name := df_Food_Name row;
     fl_Quantity := df_Quantity row;
     fl_Expiry_Date := strftime_ymd_hms (df_Expiry_Date row);
     fl_Provider_ID := Integer (df_Provider_ID row);
     fl_Provider_Type := df_Provider_Type row;
     fl_Location := df_Location row;
     fl_Food_Type := df_Food_Type row;
     fl_Meal_Type := df_Meal_Type row |}.

Definition to_sql_claim (row : Claim_df) : Claim :=
  {| c_Claim_ID := df_Claim_ID row;
     c_Food_ID := df_c_Food_ID row;
     c_Receiver_ID := Integer (df_Receiver_ID row);
     c_Status := df_Status row;
     c_Timestamp := strftime_ymd_hms (df_Timestamp row) |}.

(** The column type [to_sql] declares: a DataFrame without rows has object
    columns only. *)
Definition declared_type {A : Type} (df : list A) : affinity :=
  match df with
  | [] => TEXT
  | _ :: _ => INTEGER
  end.

Definition init_db (providers_df : list Provider) (receivers_df : list Receiver)
    (food_listings_df : list FoodListing_df) (claims_df : list Claim_df)
    : store :=
  {| providers := providers_df;
     receivers := receivers_df;
     food_listings := map to_sql_food_listing food_listings_df;
     claims := map to_sql_claim claims_df;
     food_listings_affinity := declared_type food_listings_df;
     claims_affinity := declared_type claims_df |}.

(* ================================================================= *)
(** ** Query catalog *)

(** Q1, providers and receivers per city. *)
Record city_row := mkCityRow {
  City : option string;
  NumProviders : Z;
  NumReceivers : Z }.

Definition city_key (pr : Provider * option Receiver) : option string :=
  COALESCE (Some (p_City (fst pr))) (option_map r_City (snd pr)).

Definition city_group (joined : list (Provider * option Receiver))
    (k : option string) : city_row :=
  let g := filter (fun pr => opt_text_eqb (city_key pr) k) joined in
  {| City := k;
     NumProviders :=
       count_distinct (map (fun pr => Some (p_Provider_ID (fst pr))) g);
     NumReceivers :=
       count_distinct (map (fun pr => option_map r_Receiver_ID (snd pr)) g) |}.

Definition city_row_order (a b : city_row) : bool :=
  count_desc2 (NumProviders a, NumReceivers a) (NumProviders b, NumReceivers b).

Definition get_providers_receivers_per_city_sql (conn : store)
    : list city_row :=
  let joined :=
    left_join (fun p r => String.eqb (p_City p) (r_City r))
              (providers conn) (receivers conn) in
  order_by city_row_order
           (map (city_group joined) (group_keys (map city_key joined))).

(** Q5, total food available: the scalar of the one-row result. *)
Definition get_total_food_available_sql (conn : store)
    : outcome (option Z) :=
  sql_sum (map fl_Quantity (food_listings conn)).

(** Q10, claim status percentage: the groups and their counts.  The
    Percentage column is a REAL, [CAST(COUNT(Claim_ID) AS REAL) * 100 / n]
    in IEEE double arithmetic; [exact_percentage] is the rational number that
    expression rounds, and [claim_status_percentage_exact] the result with
    the column read as that number. *)
Definition status_groups (conn : store) : list string :=
  order_by String.leb (nodup String.string_dec (map c_Status (claims conn))).

Definition status_count (conn : store) (status : string) : Z :=
  sql_count (fun c => String.eqb (c_Status c) status) (claims conn).

Definition total_claims (conn : store) : Z :=
  sql_count (fun _ => true) (claims conn).

Definition exact_percentage (count total : Z) : Q :=
  (inject_Z (count * 100) / inject_Z total)%Q.

Definition claim_status_percentage_exact (conn : store) : list (string * Q) :=
  order_by (fun a b => Qle_bool (snd b) (snd a))
    (map (fun status =>
            (status,
             exact_percentage (status_count conn status) (total_claims conn)))
         (status_groups conn)).

(** Q14, food nearing expiry.  [today] is [datetime.now()]. *)
Record expiry_row := mkExpiryRow {
  e_Food_Name : string;
  e_Quantity : Z;
  e_Expiry_Date : string;
  e_Location : string;
  e_Provider_ID : sql_value }.

Definition select_expiry_row (fl : FoodListing) : expiry_row :=
  {| e_Food_Name := fl_Food_Name fl;
     e_Quantity := fl_Quantity fl;
     e_Expiry_Date := fl_Expiry_Date fl;
     e_Location := fl_Location fl;
     e_Provider_ID := fl_Provider_ID fl |}.

Definition nearing_expiry_where (today : date) (days : Z) (fl : FoodListing)
    : bool :=
  let today_str := strftime_ymd today in
  String.ltb today_str (fl_Expiry_Date fl)
  && String.leb (fl_Expiry_Date fl) (sqlite_DATE_plus_days today days).

Definition get_food_nearing_expiry_sql (today : date) (days : Z)
    (conn : store) : list expiry_row :=
  order_by (fun a b => String.leb (e_Expiry_Date a) (e_Expiry_Date b))
           (map select_expiry_row
                (filter (nearing_expiry_where today days)
                        (food_listings conn))).

(* ================================================================= *)
(** ** CRUD statements *)

Definition set_food_listings (l : list FoodListing) (conn : store) : store :=
  {| providers := providers conn;
     receivers := receivers conn;
     food_listings := l;
     claims := claims conn;
     food_listings_affinity := food_listings_affinity conn;
     claims_affinity := claims_affinity conn |}.

Definition set_claims (l : list Claim) (conn : store) : store :=
  {| providers := providers conn;
     receivers := receivers conn;
     food_listings := food_listings conn;
     claims := l;
     food_listings_affinity := food_listings_affinity conn;
     claims_affinity := claims_affinity conn |}.

(** [INSERT INTO food_listings (...) VALUES (?, ..., ?)].  [food_id] and
    [quantity] are the [int]s of number inputs. *)
Definition add_food_listing_sql (food_id : Z) (food_name : string)
    (quantity : Z) (expiry_date : date) (provider_id : py_integer)
    (provider_type location food_type meal_type : string) : M unit :=
  execute_dml (fun conn =>
    set_food_listings
      (food_listings conn ++
       [ {| fl_Food_ID := food_id;
            fl_Food_Name := food_name;
            fl_Quantity := quantity;
            fl_Expiry_Date := strftime_ymd expiry_date;
            fl_Provider_ID := adapt provider_id;
            fl_Provider_Type := provider_type;
            fl_Location := location;
            fl_Food_Type := food_type;
            fl_Meal_Type := meal_type |} ]) conn).

(** [UPDATE food_listings SET ... WHERE Food_ID = ?]. *)
Definition update_row (food_id : Z) (food_name : string) (quantity : Z)
    (expiry_date : date) (food_type meal_type : string) (fl : FoodListing)
    : FoodListing :=
  if fl_Food_ID fl =? food_id then
    {| fl_Food_ID := fl_Food_ID fl;
       fl_Food_Name := food_name;
       fl_Quantity := quantity;
       fl_Expiry_Date := strftime_ymd expiry_date;
       fl_Provider_ID := fl_Provider_ID fl;
       fl_Provider_Type := fl_Provider_Type fl;
       fl_Location := fl_Location fl;
       fl_Food_Type := food_type;
       fl_Meal_Type := meal_type |}
  else fl.

Definition update_food_listing_sql (food_id : Z) (food_name : string)
    (quantity : Z) (expiry_date : date) (food_type meal_type : string)
    : M unit :=
  execute_dml (fun conn =>
    set_food_listings
      (map (update_row food_id food_name quantity expiry_date food_type
                       meal_type)
           (food_listings conn)) conn).

(** [DELETE FROM claims WHERE Food_ID = ?] and then
    [DELETE FROM food_listings WHERE Food_ID = ?]. *)
Definition delete_food_listing_sql (food_id : Z) : M unit :=
  execute_dml (fun conn =>
    set_claims (filter (fun c => negb (c_Food_ID c =? food_id)) (claims conn))
               conn) ;;;
  execute_dml (fun conn =>
    set_food_listings
      (filter (fun fl => negb (fl_Food_ID fl =? food_id)) (food_listings conn))
      conn).

(** [INSERT INTO claims (...) VALUES (?, ?, ?, ?, ?)]. *)
Definition add_claim_sql (claim_id food_id : Z) (receiver_id : py_integer)
    (status : string) (timestamp : datetime) : M unit :=
  execute_dml (fun conn =>
    set_claims
      (claims conn ++
       [ {| c_Claim_ID := claim_id;
            c_Food_ID := food_id;
            c_Receiver_ID := adapt receiver_id;
            c_Status := status;
            c_Timestamp := strftime_ymd_hms timestamp |} ]) conn).

(* ================================================================= *)
(** ** The "Claim Food" page *)

(** The filtered listing table. *)
Record listing_row := mkListingRow {
  l_Food_ID : Z;
  l_Food_Name : string;
  l_Quantity : Z;
  l_Expiry_Date : string;
  l_Provider_Type : string;
  l_Location : string;
  l_Food_Type : string;
  l_Meal_Type : string;
  l_Provider_Name : string;
  l_Provider_Contact : string }.

Definition select_listing_row (x : FoodListing * Provider) : listing_row :=
  let (fl, p) := x in
  {| l_Food_ID := fl_Food_ID fl;
     l_Food_Name := fl_Food_Name fl;
     l_Quantity := fl_Quantity fl;
     l_Expiry_Date := fl_Expiry_Date fl;
     l_Provider_Type := fl_Provider_Type fl;
     l_Location := fl_Location fl;
     l_Food_Type := fl_Food_Type fl;
     l_Meal_Type := fl_Meal_Type fl;
     l_Provider_Name := p_Name p;
     l_Provider_Contact := p_Contact p |}.

(** The conjuncts appended to [WHERE 1=1]: one for each select box that does
    not show 'All'. *)
Definition filter_conjuncts (selected_city selected_provider_type
    selected_food_type selected_meal_type : string)
    : list (FoodListing -> bool) :=
  (if String.eqb selected_city "All" then []
   else [fun fl => String.eqb (fl_Location fl) selected_city])
  ++ (if String.eqb selected_provider_type "All" then []
      else [fun fl => String.eqb (fl_Provider_Type fl) selected_provider_type])
  ++ (if String.eqb selected_food_type "All" then []
      else [fun fl => String.eqb (fl_Food_Type fl) selected_food_type])
  ++ (if String.eqb selected_meal_type "All" then []
      else [fun fl => String.eqb (fl_Meal_Type fl) selected_meal_type]).

Definition listing_row_order (a b : listing_row) : bool :=
  text_asc2 (l_Expiry_Date a, l_Food_Name a) (l_Expiry_Date b, l_Food_Name b).

Definition filter_query (selected_city selected_provider_type
    selected_food_type selected_meal_type : string) (conn : store)
    : list listing_row :=
  let conjuncts :=
    filter_conjuncts selected_city selected_provider_type selected_food_type
                     selected_meal_type in
  order_by listing_row_order
    (map select_listing_row
       (filter (fun x => forallb (fun w => w (fst x)) conjuncts)
          (inner_join (fun fl p => id_eqb (fl_Provider_ID fl) (p_Provider_ID p))
                      (food_listings conn) (providers conn)))).

(** The greatest value of an id column as the page reads it back: a
    [numpy.int64] from an INTEGER column, a [str] from a TEXT column, [None]
    when there is no row. *)
Definition column_max (declared : affinity) (col : list Z) : cell :=
  match declared with
  | INTEGER =>
      match sql_max col with
      | Some m => cell_int (numpy_int64 m)
      | None => cell_None
      end
  | TEXT =>
      match sql_max_text (map text_of_Z col) with
      | Some s => cell_str s
      | None => cell_None
      end
  end.

(** [int(v + 1)].  On a [numpy.int64] the sum stays in 64 bits: the
    greatest value wraps around to the least.  A [str] plus 1 raises. *)
Definition numpy_add_1 (z : Z) : Z :=
  if z <? int64_max then z + 1 else int64_min.

Definition int_plus_1 (v : cell) : outcome Z :=
  match v with
  | cell_int (py_int z) => Success (z + 1)
  | cell_int (numpy_int64 z) => Success (numpy_add_1 z)
  | cell_str _ => Failure TypeError
  | cell_None => Failure TypeError
  end.

Definition notna (v : cell) : bool :=
  match v with
  | cell_None => false
  | _ => true
  end.

(** [run_query("SELECT MAX(Claim_ID) FROM claims;").iloc[0,0]] and the id
    computed from it when the page is drawn. *)
Definition max_claim_id (conn : store) : cell :=
  column_max (claims_affinity conn) (map c_Claim_ID (claims conn)).

Definition new_claim_id (conn : store) : outcome Z :=
  if notna (max_claim_id conn) then int_plus_1 (max_claim_id conn)
  else Success 1.

(** The handler of the "Submit Claim" button; [new_claim_id] is the id the
    page computed, [claim_receiver_id] the [Receiver_ID] cell of the selected
    row, [now] is [datetime.now()]. *)
Definition claim_form_submit (new_claim_id claim_food_id : Z)
    (claim_receiver_id : py_integer) (claim_status : string) (now : datetime)
    : M unit :=
  food_exists <- run_query (fun conn =>
    sql_count (fun fl => fl_Food_ID fl =? claim_food_id)
              (food_listings conn)) ;;
  if food_exists =? 0 then fail InvalidReference
  else add_claim_sql new_claim_id claim_food_id claim_receiver_id claim_status
                     now.

(** The "Claim a Food Item" section from the drawing of the page to the
    button: an exception while the id is computed ends the script before the
    form is shown. *)
Definition claim_section (claim_food_id : Z) (selected_receiver_row : Receiver)
    (claim_status : string) (now : datetime) : M unit :=
  new_id <- evaluate new_claim_id ;;
  claim_form_submit new_id claim_food_id
    (numpy_int64 (r_Receiver_ID selected_receiver_row)) claim_status now.

(* ================================================================= *)
(** ** The "Food Listings (CRUD)" page *)

(** [current_food_listings_df['Food_ID'].max()], or 0 for an empty frame,
    and the [min_value] of the Food ID input, [int(max_food_id + 1)]. *)
Definition max_food_id (conn : store) : cell :=
  match food_listings conn with
  | [] => cell_int (py_int 0)
  | _ :: _ =>
      column_max (food_listings_affinity conn)
                 (map fl_Food_ID (food_listings conn))
  end.

Definition new_food_id_min_value (conn : store) : outcome Z :=
  int_plus_1 (max_food_id conn).

(** The handler of the "Add Listing" button; the provider id is the
    [Provider_ID] cell of the selected row. *)
Definition add_listing_form_submit (new_food_id : Z) (new_food_name : string)
    (new_quantity : Z) (new_expiry_date : date)
    (selected_provider_row : Provider) (new_food_type new_meal_type : string)
    : M unit :=
  if String.eqb new_food_name "" || (new_quantity <=? 0)
  then fail ValidationFailure
  else add_food_listing_sql new_food_id new_food_name new_quantity
         new_expiry_date (numpy_int64 (p_Provider_ID selected_provider_row))
         (p_Type selected_provider_row) (p_City selected_provider_row)
         new_food_type new_meal_type.

(** What a user can do on the two pages. *)
Inductive action :=
| AddListing (new_food_id : Z) (new_food_name : string) (new_quantity : Z)
    (new_expiry_date : date) (selected_provider_row : Provider)
    (new_food_type new_meal_type : string)
| UpdateListing (selected_listing_id : Z) (updated_food_name : string)
    (updated_quantity : Z) (updated_expiry_date : date)
    (updated_food_type updated_meal_type : string)
| DeleteListing (selected_listing_id : Z)
| SubmitClaim (claim_food_id : Z) (selected_receiver_row : Receiver)
    (claim_status : string) (now : datetime).

Definition raises {A : Type} (o : outcome A) : bool :=
  match o with
  | Success _ => false
  | Failure _ => true
  end.

(** The bounds the pages put on the ids and quantities a handler receives.
    An exception while a page is drawn ends the script, and nothing below it
    is shown: the forms of the CRUD page come after [int(max_food_id + 1)],
    the claim form after [int(max_claim_id + 1)].  The Food ID input has
    [min_value = int(max_food_id + 1)], the update/delete select box lists
    the stored ids and the form is shown for a non-zero selection only, the
    quantity inputs have [min_value = 1], as has the claim form's Food ID
    input. *)
Definition offered (conn : store) (a : action) : bool :=
  match a with
  | AddListing new_food_id _ new_quantity _ _ _ _ =>
      match new_food_id_min_value conn with
      | Success min_value => (min_value <=? new_food_id) && (1 <=? new_quantity)
      | Failure _ => false
      end
  | UpdateListing id _ updated_quantity _ _ _ =>
      negb (raises (new_food_id_min_value conn))
      && existsb (Z.eqb id) (map fl_Food_ID (food_listings conn))
      && negb (id =? 0) && (1 <=? updated_quantity)
  | DeleteListing id =>
      negb (raises (new_food_id_min_value conn))
      && existsb (Z.eqb id) (map fl_Food_ID (food_listings conn))
      && negb (id =? 0)
  | SubmitClaim claim_food_id _ _ _ =>
      negb (raises (new_claim_id conn)) && (1 <=? claim_food_id)
  end.

Definition handle (a : action) : M unit :=
  match a with
  | AddListing i n q e p ft mt => add_listing_form_submit i n q e p ft mt
  | UpdateListing i n q e ft mt => update_food_listing_sql i n q e ft mt
  | DeleteListing i => delete_food_listing_sql i
  | SubmitClaim f r s now => claim_section f r s now
  end.

(** One user action, and any number of them, each starting from a store
    in [P]. *)
Inductive ui_step (conn : store) : store -> Prop :=
| ui_step_intro (a : action) :
    offered conn a = true -> ui_step conn (snd (handle a conn)).

Inductive ui_steps (P : store -> Prop) : store -> store -> Prop :=
| ui_steps_refl conn : ui_steps P conn conn
| ui_steps_cons conn conn' conn'' :
    P conn -> ui_step conn conn' -> ui_steps P conn' conn'' ->
    ui_steps P conn conn''.

(** The same for a caller of the mutation layer, which takes any key. *)
Inductive dml :=
| AddFoodListing (food_id : Z) (food_name : string) (quantity : Z)
    (expiry_date : date) (provider_id : py_integer)
    (provider_type location food_type meal_type : string)
| UpdateFoodListing (food_id : Z) (food_name : string) (quantity : Z)
    (expiry_date : date) (food_type meal_type : string)
| DeleteFoodListing (food_id : Z)
| AddClaim (claim_id food_id : Z) (receiver_id : py_integer)
    (status : string) (timestamp : datetime).

Definition run_dml (d : dml) : M unit :=
  match d with
  | AddFoodListing i n q e p pt l ft mt =>
      add_food_listing_sql i n q e p pt l ft mt
  | UpdateFoodListing i n q e ft mt => update_food_listing_sql i n q e ft mt
  | DeleteFoodListing i => delete_food_listing_sql i
  | AddClaim i f r s t => add_claim_sql i f r s t
  end.

Fixpoint run_dmls (ds : list dml) (conn : store) : store :=
  match ds with
  | [] => conn
  | d :: ds' => run_dmls ds' (snd (run_dml d conn))
  end.

(* ================================================================= *)
(** ** Query catalog: the grouped reports *)

(** [GROUP BY key] over a text column: each distinct key with its rows, keys
    in text order. *)
Definition group_by {A : Type} (key : A -> string) (rows : list A)
    : list (string * list A) :=
  map (fun k => (k, filter (fun r => String.eqb (key r) k) rows))
      (order_by String.leb (nodup String.string_dec (map key rows))).

(** A row of a grouped report: the group key and its aggregate; the reports
    come [ORDER BY aggregate DESC]. *)
Definition agg_row : Type := (string * Z)%type.

Definition agg_desc (a b : agg_row) : bool := snd b <=? snd a.

Definition aggregate {A : Type} (key : A -> string) (agg : list A -> Z)
    (rows : list A) : list agg_row :=
  order_by agg_desc (map (fun g => (fst g, agg (snd g))) (group_by key rows)).

(** [COUNT(col)] and [SUM(col)] of a group, which has at least one row: the
    numbers a report shows when the statement returns (a SUM whose running
    total leaves the 64-bit range makes it fail instead, see [sql_sum]). *)
Definition count_rows {A : Type} (g : list A) : Z := Z.of_nat (List.length g).

Definition sum_rows {A : Type} (col : A -> Z) (g : list A) : Z :=
  fold_right Z.add 0 (map col g).

(** The joins the reports share. *)
Definition claims_listings (conn : store) : list (Claim * FoodListing) :=
  inner_join (fun c fl => c_Food_ID c =? fl_Food_ID fl)
             (claims conn) (food_listings conn).

Definition claims_listings_receivers (conn : store)
    : list (Claim * FoodListing * Receiver) :=
  inner_join (fun cfl r => id_eqb (c_Receiver_ID (fst cfl)) (r_Receiver_ID r))
             (claims_listings conn) (receivers conn).

Definition claims_listings_providers (conn : store)
    : list (Claim * FoodListing * Provider) :=
  inner_join (fun cfl p => id_eqb (fl_Provider_ID (snd cfl)) (p_Provider_ID p))
             (claims_listings conn) (providers conn).

Definition completed (c : Claim) : bool := String.eqb (c_Status c) "Completed".


(** Q4, top receivers by claimed quantity. *)
Definition get_top_receivers_by_claimed_food_sql (conn : store)
    : list agg_row :=
  aggregate (fun x => r_Name (snd x))
            (sum_rows (fun x => fl_Quantity (snd (fst x))))
            (filter (fun x => completed (fst (fst x)))
                    (claims_listings_receivers conn)).

(** Q6, city with most listings: [LIMIT 1]. *)
Definition get_city_with_most_listings_sql (conn : store) : list agg_row :=
  firstn 1 (aggregate fl_Location count_rows (food_listings conn)).

(** Q7, most common food names: [LIMIT 5]. *)
Definition get_most_common_food_types_sql (conn : store) : list agg_row :=
  firstn 5 (aggregate fl_Food_Name count_rows (food_listings conn)).

(** Q8, claims per food item. *)
Definition get_claims_per_food_item_sql (conn : store) : list agg_row :=
  aggregate (fun x => fl_Food_Name (snd x)) count_rows (claims_listings conn).

(** Q9, providers with successful claims. *)
Definition get_providers_with_successful_claims_sql (conn : store)
    : list agg_row :=
  aggregate (fun x => p_Name (snd x)) count_rows
            (filter (fun x => completed (fst (fst x)))
                    (claims_listings_providers conn)).

(** Q12, most claimed meal type. *)
Definition get_most_claimed_meal_type_sql (conn : store) : list agg_row :=
  aggregate (fun x => fl_Meal_Type (snd x)) count_rows
            (filter (fun x => completed (fst x)) (claims_listings conn)).

(** Q13, total food donated by provider. *)
Definition get_total_food_donated_by_provider_sql (conn : store)
    : list agg_row :=
  aggregate (fun x => p_Name (snd x)) (sum_rows (fun x => fl_Quantity (fst x)))
            (inner_join (fun fl p => id_eqb (fl_Provider_ID fl) (p_Provider_ID p))
                        (food_listings conn) (providers conn)).

(** Q15, claims by receiver type. *)
Definition get_claims_by_receiver_type_sql (conn : store) : list agg_row :=
  aggregate (fun x => r_Type (snd x)) count_rows
            (inner_join (fun c r => id_eqb (c_Receiver_ID c) (r_Receiver_ID r))
                        (claims conn) (receivers conn)).

(* ================================================================= *)
(** ** Page queries *)

(** [SELECT DISTINCT col FROM food_listings ORDER BY col ASC], the options
    of a filter select box after 'All'. *)
Definition distinct_sorted (col : FoodListing -> string) (conn : store)
    : list string :=
  order_by String.leb (nodup String.string_dec (map col (food_listings conn))).

Definition all_locations : store -> list string := distinct_sorted fl_Location.
Definition all_provider_types : store -> list string :=
  distinct_sorted fl_Provider_Type.
Definition all_food_types : store -> list string := distinct_sorted fl_Food_Type.
Definition all_meal_types : store -> list string := distinct_sorted fl_Meal_Type.

(** [SELECT * FROM food_listings WHERE Food_ID = {selected_listing_id}] and
    [.iloc[0]]: the first stored row with that id. *)
Definition current_listing_db (selected_listing_id : Z) (conn : store)
    : option FoodListing :=
  hd_error (filter (fun fl => fl_Food_ID fl =? selected_listing_id)
                   (food_listings conn)).

(** The claims history table, [ORDER BY c.Timestamp DESC]. *)
Record history_row := mkHistoryRow {
  h_Claim_ID : Z;
  h_Food_Name : string;
  h_Receiver_Name : string;
  h_Status : string;
  h_Timestamp : string }.

Definition select_history_row (x : Claim * FoodListing * Receiver)
    : history_row :=
  {| h_Claim_ID := c_Claim_ID (fst (fst x));
     h_Food_Name := fl_Food_Name (snd (fst x));
     h_Receiver_Name := r_Name (snd x);
     h_Status := c_Status (fst (fst x));
     h_Timestamp := c_Timestamp (fst (fst x)) |}.

Definition claims_display_query (conn : store) : list history_row :=
  order_by (fun a b => String.leb (h_Timestamp b) (h_Timestamp a))
           (map select_history_row (claims_listings_receivers conn)).

(* ================================================================= *)
(** ** Vocabulary of the statements *)

Definition run {A : Type} (m : M A) (conn : store) : outcome A * store :=
  m conn.

(** Food_ID and Claim_ID are keys of their relations. *)
Definition keys_unique (conn : store) : Prop :=
  NoDup (map fl_Food_ID (food_listings conn))
  /\ NoDup (map c_Claim_ID (claims conn)).

(** The stored keys are below the greatest 64-bit value: the next id the
    pages compute does not wrap around. *)
Definition below_int64_max (conn : store) : Prop :=
  (forall fl, In fl (food_listings conn) -> fl_Food_ID fl < int64_max)
  /\ (forall c, In c (claims conn) -> c_Claim_ID c < int64_max).

(** Every claim refers to a stored listing. *)
Definition no_orphan_claim (conn : store) : Prop :=
  forall c, In c (claims conn) ->
            In (c_Food_ID c) (map fl_Food_ID (food_listings conn)).

(** Text order as propositions. *)
Definition text_lt (a b : string) : Prop := String.ltb a b = true.
Definition text_le (a b : string) : Prop := String.leb a b = true.

(** A select box of the filter bar: 'All' stands for an absent filter, any
    other selection must equal the column. *)
Definition selection_matches (selected value : string) : Prop :=
  selected = "All"%string \/ value = selected.

Definition selection_matchesb (selected value : string) : bool :=
  String.eqb selected "All" || String.eqb value selected.

Definition listing_matchesb (selected_city selected_provider_type
    selected_food_type selected_meal_type : string) (fl : FoodListing) : bool :=
  selection_matchesb selected_city (fl_Location fl)
  && selection_matchesb selected_provider_type (fl_Provider_Type fl)
  && selection_matchesb selected_food_type (fl_Food_Type fl)
  && selection_matchesb selected_meal_type (fl_Meal_Type fl).

(** Expiry_Date ascending, then Food_Name ascending. *)
Definition expiry_then_name (a b : listing_row) : Prop :=
  text_lt (l_Expiry_Date a) (l_Expiry_Date b)
  \/ (l_Expiry_Date a = l_Expiry_Date b
      /\ text_le (l_Food_Name a) (l_Food_Name b)).

(** Providers descending, then receivers descending. *)
Definition providers_then_receivers_desc (a b : city_row) : Prop :=
  NumProviders b < NumProviders a
  \/ (NumProviders a = NumProviders b /\ NumReceivers b <= NumReceivers a).

(** Calendar dates: the values a Python [date] can take, for the years
    [strftime('%Y')] writes with four digits. *)
Definition is_leap (y : Z) : bool :=
  ((y mod 4 =? 0) && negb (y mod 100 =? 0)) || (y mod 400 =? 0).

Definition days_in_month (y m : Z) : Z :=
  if m =? 2 then (if is_leap y then 29 else 28)
  else if (m =? 4) || (m =? 6) || (m =? 9) || (m =? 11) then 30 else 31.

Definition valid_date (d : date) : Prop :=
  1 <= month d <= 12 /\ 1 <= day d <= days_in_month (year d) (month d).

Definition four_digit_year (d : date) : Prop := 1000 <= year d <= 9999.

(** Chronological comparison of two dates, and of two comparisons in
    sequence. *)
Definition then_compare (c rest : comparison) : comparison :=
  match c with
  | Eq => rest
  | _ => c
  end.

Definition date_compare (a b : date) : comparison :=
  then_compare (year a ?= year b)
    (then_compare (month a ?= month b) (day a ?= day b)).

(** Days from 1 March of year 0 to 1 March of year [y], and the reading of a
    date [a] with day number [z] as day [doy] of the year [y] that starts on
    1 March, in its month [mp] (0 is March). *)
Definition march_days (y : Z) : Z := 365 * y + y / 4 - y / 100 + y / 400.

Record march_view (a : date) (z y mp doy : Z) : Prop := mkMarchView {
  mv_year : year a = y + (if mp <? 10 then 0 else 1);
  mv_month : month a = if mp <? 10 then mp + 3 else mp - 9;
  mv_day : day a = doy - (153 * mp + 2) / 5 + 1;
  mv_mp : 0 <= mp <= 11;
  mv_lo : (153 * mp + 2) / 5 <= doy;
  mv_hi : doy < (153 * (mp + 1) + 2) / 5;
  mv_z : z + 719468 = march_days y + doy;
  mv_len : march_days y + doy < march_days (y + 1) }.

(** Sums. *)
Definition Qsum (l : list Q) : Q := fold_right Qplus 0%Q l.

Definition Zsum (l : list Z) : Z := fold_right Z.add 0 l.

(** Sample rows for the worked examples. *)
Definition P1 : Provider := mkProvider 1 "P1" "Restaurant" "CityA" "p1@x".
Definition P2 : Provider := mkProvider 2 "P2" "Grocery Store" "CityB" "p2@x".
Definition R1 : Receiver := mkReceiver 1 "R1" "NGO" "CityA".
Definition R2 : Receiver := mkReceiver 2 "R2" "Shelter" "CityC".

Definition day0 : date := mkDate 2025 3 10.
Definition noon0 : datetime := mkDatetime day0 12 0 0.

Definition rice (food_id : Z) (expiry : string) : FoodListing :=
  mkFoodListing food_id "Rice" 5 expiry (Integer 1) "Restaurant" "CityA"
                "Vegan" "Lunch".

Definition claim_of (claim_id food_id : Z) : Claim :=
  mkClaim claim_id food_id (Integer 1) "Pending" "2025-03-10 12:00:00".

(** Rows of the listings and claims files. *)
Definition rice_df (food_id : Z) (expiry : date) : FoodListing_df :=
  mkFoodListing_df food_id "Rice" 5 (mkDatetime expiry 0 0 0) 1 "Restaurant"
                   "CityA" "Vegan" "Lunch".

Definition claim_df (claim_id food_id : Z) : Claim_df :=
  mkClaim_df claim_id food_id 1 "Pending" noon0.

Definition apple_df : FoodListing_df :=
  mkFoodListing_df 1 "Apple" 5 (mkDatetime (mkDate 2025 3 17) 0 0 0) 1
                   "Restaurant" "CityA" "Vegan" "Lunch".

Definition zebra_df : FoodListing_df :=
  mkFoodListing_df 2 "Zebra" 4 (mkDatetime (mkDate 2025 3 17) 0 0 0) 1
                   "Restaurant" "CityA" "Vegan" "Lunch".

(** The store [init_db] makes of four files with a header and no row, and
    stores whose two tables were loaded with rows. *)
Definition empty_store : store := mkStore [] [] [] [] TEXT TEXT.

Definition one_listing_store : store :=
  mkStore [P1] [R1] [rice 1 "2025-03-20"] [claim_of 1 1] INTEGER INTEGER.

(** Provider_ID is a key of providers and every listing refers to a stored
    provider; the same for receivers and claims. *)
Definition providers_intact (conn : store) : Prop :=
  NoDup (map p_Provider_ID (providers conn))
  /\ forall fl, In fl (food_listings conn) ->
                In (fl_Provider_ID fl)
                   (map (fun p => Integer (p_Provider_ID p)) (providers conn)).

Definition receivers_intact (conn : store) : Prop :=
  NoDup (map r_Receiver_ID (receivers conn))
  /\ forall c, In c (claims conn) ->
               In (c_Receiver_ID c)
                  (map (fun r => Integer (r_Receiver_ID r)) (receivers conn)).

(** The aggregates of a report, added up; the number of listings under a
    key. *)
Definition report_total (rows : list agg_row) : Z := Zsum (map snd rows).

Definition listings_with (col : FoodListing -> string) (k : string)
    (conn : store) : Z :=
  count_rows (filter (fun fl => String.eqb (col fl) k) (food_listings conn)).

(** More sample rows. *)
Definition bread (food_id : Z) : FoodListing :=
  mkFoodListing food_id "Bread" 3 "2025-03-21" (Integer 2) "Grocery Store"
                "CityB" "Vegetarian" "Breakfast".

Definition two_listing_store : store :=
  mkStore [P1; P2] [R1; R2] [rice 1 "2025-03-20"; bread 2]
          [claim_of 1 1;
           mkClaim 2 2 (Integer 2) "Completed" "2025-03-11 09:30:00"]
          INTEGER INTEGER.

(* ================================================================= *)
(** * Properties *)

(** ** The connection monad *)

Lemma run_ret {A : Type} (a : A) conn : run (ret a) conn = (Success a, conn).
Proof. reflexivity. Qed.

Lemma run_bind_success {A B : Type} (m : M A) (k : A -> M B) conn a conn' :
  run m conn = (Success a, conn') -> run (bind m k) conn = run (k a) conn'.
Proof. unfold run, bind. intros ->. reflexivity. Qed.

Lemma run_bind_failure {A B : Type} (m : M A) (k : A -> M B) conn e conn' :
  run m conn = (Failure e, conn') -> run (bind m k) conn = (Failure e, conn').
Proof. unfold run, bind. intros ->. reflexivity. Qed.

Lemma execute_dml_success stmt conn :
  run (execute_dml stmt) conn = (Success tt, stmt conn).
Proof. reflexivity. Qed.

(** ** ORDER BY *)

Section OrderByFacts.
Context {A : Type} (le : A -> A -> bool).

Let le_prop (a b : A) : Prop := le a b = true.

Lemma insert_sorted_perm x l : Permutation (x :: l) (insert_sorted le x l).
Proof.
  induction l as [|y l IH]; simpl.
  - apply Permutation_refl.
  - destruct (le x y).
    + apply Permutation_refl.
    + eapply perm_trans; [apply perm_swap|]. now apply perm_skip.
Qed.

Lemma order_by_perm l : Permutation l (order_by le l).
Proof.
  induction l as [|x l IH]; simpl.
  - constructor.
  - eapply perm_trans; [apply perm_skip, IH|]. apply insert_sorted_perm.
Qed.

Lemma order_by_In x l : In x (order_by le l) <-> In x l.
Proof.
  split; apply Permutation_in;
    [apply Permutation_sym|]; apply order_by_perm.
Qed.

Lemma order_by_length l : List.length (order_by le l) = List.length l.
Proof. symmetry. apply Permutation_length, order_by_perm. Qed.

Hypothesis le_total : forall a b, le a b = true \/ le b a = true.

Lemma insert_sorted_hdrel x y l :
  le y x = true -> HdRel le_prop y l -> HdRel le_prop y (insert_sorted le x l).
Proof.
  intros Hyx Hhd. destruct l as [|z l]; simpl.
  - now constructor.
  - inversion Hhd; subst. destruct (le x z); now constructor.
Qed.

Lemma insert_sorted_sorted x l :
  Sorted le_prop l -> Sorted le_prop (insert_sorted le x l).
Proof.
  induction 1 as [|y l Hs IH Hhd]; simpl.
  - repeat constructor.
  - destruct (le x y) eqn:Hxy.
    + constructor; [now constructor|now constructor].
    + constructor; [exact IH|]. apply insert_sorted_hdrel; [|exact Hhd].
      destruct (le_total x y) as [H|H]; [congruence|exact H].
Qed.

Lemma order_by_sorted l : Sorted le_prop (order_by le l).
Proof.
  induction l as [|x l IH]; simpl.
  - constructor.
  - now apply insert_sorted_sorted.
Qed.

Hypothesis le_trans :
  forall a b c, le a b = true -> le b c = true -> le a c = true.

Lemma order_by_strongly_sorted l : StronglySorted le_prop (order_by le l).
Proof.
  apply Sorted_StronglySorted; [|apply order_by_sorted].
  intros a b c. apply le_trans.
Qed.
End OrderByFacts.

(** ** Text order *)

Lemma ascii_compare_refl a : Ascii.compare a a = Eq.
Proof. unfold Ascii.compare. apply N.compare_refl. Qed.

Lemma ascii_compare_lt_trans a b c :
  Ascii.compare a b = Lt -> Ascii.compare b c = Lt -> Ascii.compare a c = Lt.
Proof.
  unfold Ascii.compare. rewrite !N.compare_lt_iff. apply N.lt_trans.
Qed.

Lemma string_compare_refl s : String.compare s s = Eq.
Proof.
  induction s as [|a s IH]; simpl; [reflexivity|].
  now rewrite ascii_compare_refl.
Qed.

Lemma string_compare_lt_trans s1 : forall s2 s3,
  String.compare s1 s2 = Lt -> String.compare s2 s3 = Lt ->
  String.compare s1 s3 = Lt.
Proof.
  induction s1 as [|a s1 IH]; intros [|b s2] [|c s3]; simpl;
    try discriminate; try reflexivity.
  destruct (Ascii.compare a b) eqn:Hab; try discriminate;
    destruct (Ascii.compare b c) eqn:Hbc; try discriminate; intros H1 H2.
  - apply Ascii.compare_eq_iff in Hab, Hbc. subst.
    rewrite ascii_compare_refl. now apply (IH s2).
  - apply Ascii.compare_eq_iff in Hab. subst. now rewrite Hbc.
  - apply Ascii.compare_eq_iff in Hbc. subst. now rewrite Hab.
  - now rewrite (ascii_compare_lt_trans a b c).
Qed.

Lemma string_ltb_lt s1 s2 : String.ltb s1 s2 = true <-> String.compare s1 s2 = Lt.
Proof. unfold String.ltb. destruct (String.compare s1 s2); intuition congruence. Qed.

Lemma string_leb_cases s1 s2 :
  String.leb s1 s2 = true <-> String.ltb s1 s2 = true \/ s1 = s2.
Proof.
  unfold String.leb, String.ltb.
  destruct (String.compare s1 s2) eqn:E.
  - apply String.compare_eq_iff in E. intuition.
  - intuition.
  - split; [discriminate|]. intros [H|H]; [discriminate|].
    subst. rewrite string_compare_refl in E. discriminate.
Qed.

Lemma string_ltb_trans s1 s2 s3 :
  String.ltb s1 s2 = true -> String.ltb s2 s3 = true -> String.ltb s1 s3 = true.
Proof. rewrite !string_ltb_lt. apply string_compare_lt_trans. Qed.

Lemma string_ltb_irrefl s : String.ltb s s = false.
Proof. unfold String.ltb. now rewrite string_compare_refl. Qed.

Lemma string_leb_refl s : String.leb s s = true.
Proof. apply string_leb_cases. now right. Qed.

Lemma string_leb_trans s1 s2 s3 :
  String.leb s1 s2 = true -> String.leb s2 s3 = true -> String.leb s1 s3 = true.
Proof.
  rewrite !string_leb_cases. intros [H1| ->] [H2| ->]; auto.
  left. eapply string_ltb_trans; eauto.
Qed.

Lemma string_ltb_leb_trans s1 s2 s3 :
  String.ltb s1 s2 = true -> String.leb s2 s3 = true -> String.ltb s1 s3 = true.
Proof.
  intros H1 H2. apply string_leb_cases in H2 as [H2| ->]; auto.
  eapply string_ltb_trans; eauto.
Qed.

Lemma string_ltb_total s1 s2 :
  String.ltb s1 s2 = true \/ s1 = s2 \/ String.ltb s2 s1 = true.
Proof.
  destruct (String.leb_total s1 s2) as [H|H];
    apply string_leb_cases in H as [H|H]; auto.
Qed.

Lemma string_ltb_asym s1 s2 :
  String.ltb s1 s2 = true -> String.ltb s2 s1 = false.
Proof.
  intros H. destruct (String.ltb s2 s1) eqn:E; [|reflexivity].
  pose proof (string_ltb_trans _ _ _ H E) as F.
  rewrite string_ltb_irrefl in F. discriminate.
Qed.

Lemma text_asc2_total a b : text_asc2 a b = true \/ text_asc2 b a = true.
Proof.
  unfold text_asc2. destruct a as [a1 a2], b as [b1 b2]; simpl.
  destruct (string_ltb_total a1 b1) as [H|[ ->|H]].
  - left. now rewrite H.
  - rewrite String.eqb_refl, string_ltb_irrefl. simpl. apply String.leb_total.
  - right. now rewrite H.
Qed.

Lemma text_asc2_trans a b c :
  text_asc2 a b = true -> text_asc2 b c = true -> text_asc2 a c = true.
Proof.
  unfold text_asc2. destruct a as [a1 a2], b as [b1 b2], c as [c1 c2]; simpl.
  rewrite !orb_true_iff, !andb_true_iff, !String.eqb_eq.
  intros [H1|[-> H1]] [H2|[-> H2]]; auto.
  - left. eapply string_ltb_trans; eauto.
  - right. split; [reflexivity|]. eapply string_leb_trans; eauto.
Qed.

Lemma count_desc2_total a b : count_desc2 a b = true \/ count_desc2 b a = true.
Proof.
  unfold count_desc2. destruct a as [a1 a2], b as [b1 b2]; simpl.
  rewrite !orb_true_iff, !andb_true_iff, !Z.ltb_lt, !Z.eqb_eq, !Z.leb_le. lia.
Qed.

Lemma count_desc2_trans a b c :
  count_desc2 a b = true -> count_desc2 b c = true -> count_desc2 a c = true.
Proof.
  unfold count_desc2. destruct a as [a1 a2], b as [b1 b2], c as [c1 c2]; simpl.
  rewrite !orb_true_iff, !andb_true_iff, !Z.ltb_lt, !Z.eqb_eq, !Z.leb_le. lia.
Qed.

(** ** Aggregates *)

Lemma fold_left_max_ge l : forall x, x <= fold_left Z.max l x.
Proof.
  induction l as [|y l IH]; intros x; simpl; [lia|].
  specialize (IH (Z.max x y)). lia.
Qed.

Lemma fold_left_max_upper l : forall x y, In y l -> y <= fold_left Z.max l x.
Proof.
  induction l as [|z l IH]; intros x y; simpl; [tauto|].
  intros [->|H]; [|now apply IH].
  pose proof (fold_left_max_ge l (Z.max x y)). lia.
Qed.

Lemma fold_left_max_In l : forall x, In (fold_left Z.max l x) (x :: l).
Proof.
  induction l as [|y l IH]; intros x; simpl; [now left|].
  destruct (IH (Z.max x y)) as [H|H].
  - destruct (Z.max_spec x y) as [[_ E]|[_ E]]; rewrite E in *; auto.
  - right. now right.
Qed.

Lemma sql_max_None l : sql_max l = None <-> l = [].
Proof. destruct l; simpl; split; congruence. Qed.

Lemma sql_max_Some l m :
  sql_max l = Some m -> In m l /\ forall x, In x l -> x <= m.
Proof.
  destruct l as [|y l]; simpl; [discriminate|]. intros [= <-]. split.
  - apply fold_left_max_In.
  - intros x [->|H]; [apply fold_left_max_ge|now apply fold_left_max_upper].
Qed.

Lemma sql_count_zero {A : Type} (w : A -> bool) l :
  sql_count w l = 0 <-> forall x, In x l -> w x = false.
Proof.
  unfold sql_count. induction l as [|y l IH]; simpl.
  - split; [intros _ x []|reflexivity].
  - destruct (w y) eqn:E; simpl.
    + split; [lia|]. intros H. specialize (H y (or_introl eq_refl)). congruence.
    + rewrite IH. split.
      * intros H x [->|Hx]; auto.
      * intros H x Hx. apply H. now right.
Qed.

Lemma food_exists_zero conn food_id :
  sql_count (fun fl => fl_Food_ID fl =? food_id) (food_listings conn) = 0
  <-> ~ In food_id (map fl_Food_ID (food_listings conn)).
Proof.
  rewrite sql_count_zero, in_map_iff. split.
  - intros H [fl [E Hin]]. specialize (H fl Hin). rewrite E, Z.eqb_refl in H.
    discriminate.
  - intros H fl Hin. apply Z.eqb_neq. intros E. apply H. now exists fl.
Qed.

(** ** Keys *)

Lemma NoDup_snoc {A : Type} (l : list A) x :
  NoDup l -> ~ In x l -> NoDup (l ++ [x]).
Proof.
  intros Hl Hx. induction Hl as [|y l Hy Hl IH]; simpl.
  - constructor; [tauto|constructor].
  - constructor.
    + rewrite in_app_iff. simpl. intros [H|[H|[]]]; [tauto|].
      subst. apply Hx. now left.
    + apply IH. intros H. apply Hx. now right.
Qed.

Lemma NoDup_map_filter {A B : Type} (f : A -> B) (w : A -> bool) l :
  NoDup (map f l) -> NoDup (map f (filter w l)).
Proof.
  induction l as [|x l IH]; simpl; [auto|]. intros H.
  inversion H as [|? ? Hx Hl]; subst. destruct (w x); simpl; [|auto].
  constructor; [|auto]. intros Hin. apply Hx.
  apply in_map_iff in Hin as [y [E Hy]]. apply filter_In in Hy as [Hy _].
  rewrite <- E. now apply in_map.
Qed.

Lemma update_row_id i n q e ft mt fl :
  fl_Food_ID (update_row i n q e ft mt fl) = fl_Food_ID fl.
Proof. unfold update_row. now destruct (fl_Food_ID fl =? i). Qed.

Lemma update_rows_ids i n q e ft mt l :
  map fl_Food_ID (map (update_row i n q e ft mt) l) = map fl_Food_ID l.
Proof.
  rewrite map_map. apply map_ext. intros fl. apply update_row_id.
Qed.

Lemma update_rows_absent i n q e ft mt l :
  ~ In i (map fl_Food_ID l) -> map (update_row i n q e ft mt) l = l.
Proof.
  induction l as [|fl l IH]; simpl; [reflexivity|]. intros H.
  rewrite IH by tauto. unfold update_row.
  destruct (Z.eqb_spec (fl_Food_ID fl) i) as [E|E]; [|reflexivity].
  exfalso. apply H. now left.
Qed.

Lemma filter_absent {A : Type} (key : A -> Z) i l :
  ~ In i (map key l) -> filter (fun x => negb (key x =? i)) l = l.
Proof.
  induction l as [|x l IH]; simpl; [reflexivity|]. intros H.
  destruct (Z.eqb_spec (key x) i) as [E|E]; simpl.
  - exfalso. apply H. now left.
  - rewrite IH by tauto. reflexivity.
Qed.

Lemma filter_idem {A : Type} (w : A -> bool) l :
  filter w (filter w l) = filter w l.
Proof.
  induction l as [|x l IH]; simpl; [reflexivity|].
  destruct (w x) eqn:E; simpl; [rewrite E|]; now rewrite IH.
Qed.

(** ** Ids computed by the pages *)

Lemma numpy_add_1_below z : z < int64_max -> numpy_add_1 z = z + 1.
Proof.
  intros H. unfold numpy_add_1. destruct (Z.ltb_spec z int64_max); [reflexivity|lia].
Qed.

(** On the values of the type, [numpy_add_1] is addition modulo 2^64. *)
Lemma numpy_add_1_wraps z :
  int64_min <= z <= int64_max ->
  numpy_add_1 z = (z + 1 - int64_min) mod 2 ^ 64 + int64_min.
Proof.
  unfold numpy_add_1, int64_min, int64_max. intros H.
  destruct (Z.ltb_spec z (2 ^ 63 - 1)) as [L|L].
  - rewrite Z.mod_small; lia.
  - replace z with (2 ^ 63 - 1) by lia. reflexivity.
Qed.

Lemma sql_max_text_None l : sql_max_text l = None <-> l = [].
Proof. destruct l; simpl; split; congruence. Qed.

Lemma column_max_None declared col : column_max declared col = cell_None <-> col = [].
Proof.
  unfold column_max. destruct declared.
  - destruct (sql_max col) eqn:E.
    + split; [discriminate|]. intros ->. discriminate.
    + apply sql_max_None in E. split; auto.
  - destruct (sql_max_text (map text_of_Z col)) eqn:E.
    + split; [discriminate|]. intros ->. discriminate.
    + apply sql_max_text_None in E. apply map_eq_nil in E. split; auto.
Qed.

Lemma column_max_text col :
  col <> [] -> exists s, column_max TEXT col = cell_str s.
Proof.
  destruct col as [|x col]; [congruence|]. intros _. simpl. eauto.
Qed.

Lemma column_max_integer col :
  col <> [] ->
  exists m, column_max INTEGER col = cell_int (numpy_int64 m)
            /\ In m col /\ forall x, In x col -> x <= m.
Proof.
  intros H. unfold column_max. destruct (sql_max col) as [m|] eqn:E.
  - exists m. split; [reflexivity|]. now apply sql_max_Some.
  - apply sql_max_None in E. contradiction.
Qed.

Lemma new_claim_id_empty conn : claims conn = [] -> new_claim_id conn = Success 1.
Proof.
  intros H. unfold new_claim_id, max_claim_id. rewrite H. simpl.
  now destruct (claims_affinity conn).
Qed.

Lemma new_claim_id_text conn :
  claims conn <> [] -> claims_affinity conn = TEXT ->
  new_claim_id conn = Failure TypeError.
Proof.
  intros H Ht. unfold new_claim_id, max_claim_id. rewrite Ht.
  destruct (column_max_text (map c_Claim_ID (claims conn))) as [s ->];
    [|reflexivity].
  intros E. apply map_eq_nil in E. contradiction.
Qed.

Lemma new_claim_id_integer conn :
  claims conn <> [] -> claims_affinity conn = INTEGER ->
  exists m,
    In m (map c_Claim_ID (claims conn))
    /\ (forall c, In c (claims conn) -> c_Claim_ID c <= m)
    /\ new_claim_id conn = Success (numpy_add_1 m).
Proof.
  intros H Hi. unfold new_claim_id, max_claim_id. rewrite Hi.
  destruct (column_max_integer (map c_Claim_ID (claims conn)))
    as [m [-> [Hin Hub]]].
  - intros E. apply map_eq_nil in E. contradiction.
  - exists m. repeat split; auto. intros c Hc. apply Hub. now apply in_map.
Qed.

(** Below the greatest 64-bit value the id is one above every stored id. *)
Lemma new_claim_id_fresh conn i :
  (forall c, In c (claims conn) -> c_Claim_ID c < int64_max) ->
  new_claim_id conn = Success i ->
  ~ In i (map c_Claim_ID (claims conn))
  /\ forall c, In c (claims conn) -> c_Claim_ID c < i.
Proof.
  intros Hb Hn. destruct (claims conn) as [|c0 cs] eqn:Hc.
  - split; [simpl; tauto|intros c []].
  - rewrite <- Hc in *.
    assert (Hne : claims conn <> []) by (rewrite Hc; discriminate).
    destruct (claims_affinity conn) eqn:Ha.
    + destruct (new_claim_id_integer conn Hne Ha) as [m [Hin [Hub E]]].
      rewrite E in Hn. injection Hn as <-.
      apply in_map_iff in Hin as [c [<- Hin]].
      rewrite numpy_add_1_below by now apply Hb.
      assert (Hlt : forall c', In c' (claims conn) -> c_Claim_ID c' < c_Claim_ID c + 1).
      { intros c' Hc'. specialize (Hub c' Hc'). lia. }
      split; [|exact Hlt].
      intros Hin'. apply in_map_iff in Hin' as [c' [E' Hc']].
      specialize (Hlt c' Hc'). lia.
    + rewrite (new_claim_id_text conn Hne Ha) in Hn. discriminate.
Qed.

Lemma new_food_id_min_value_empty conn :
  food_listings conn = [] -> new_food_id_min_value conn = Success 1.
Proof.
  intros H. unfold new_food_id_min_value, max_food_id. now rewrite H.
Qed.

Lemma max_food_id_integer conn :
  food_listings conn <> [] -> food_listings_affinity conn = INTEGER ->
  exists m,
    max_food_id conn = cell_int (numpy_int64 m)
    /\ In m (map fl_Food_ID (food_listings conn))
    /\ forall fl, In fl (food_listings conn) -> fl_Food_ID fl <= m.
Proof.
  intros H Hi. unfold max_food_id. rewrite Hi.
  destruct (food_listings conn) as [|fl0 fls] eqn:Hf; [congruence|].
  rewrite <- Hf in *.
  destruct (column_max_integer (map fl_Food_ID (food_listings conn)))
    as [m [-> [Hin Hub]]].
  - rewrite Hf. discriminate.
  - exists m. repeat split; auto. intros fl Hfl. apply Hub. now apply in_map.
Qed.

Lemma max_food_id_text conn :
  food_listings conn <> [] -> food_listings_affinity conn = TEXT ->
  new_food_id_min_value conn = Failure TypeError.
Proof.
  intros H Ht. unfold new_food_id_min_value, max_food_id. rewrite Ht.
  destruct (food_listings conn) as [|fl0 fls] eqn:Hf; [congruence|].
  rewrite <- Hf in *.
  destruct (column_max_text (map fl_Food_ID (food_listings conn))) as [s ->];
    [|reflexivity].
  rewrite Hf. discriminate.
Qed.

(** Below the greatest 64-bit value an id the Food ID input accepts is above
    every stored id. *)
Lemma above_min_value_fresh conn min_value i :
  (forall fl, In fl (food_listings conn) -> fl_Food_ID fl < int64_max) ->
  new_food_id_min_value conn = Success min_value ->
  min_value <= i ->
  ~ In i (map fl_Food_ID (food_listings conn)).
Proof.
  intros Hb Hm Hi. destruct (food_listings conn) as [|fl0 fls] eqn:Hf.
  - simpl. tauto.
  - rewrite <- Hf in *.
    assert (Hne : food_listings conn <> []) by (rewrite Hf; discriminate).
    destruct (food_listings_affinity conn) eqn:Ha.
    + destruct (max_food_id_integer conn Hne Ha) as [m [E [Hin Hub]]].
      unfold new_food_id_min_value in Hm. rewrite E in Hm. simpl in Hm.
      injection Hm as <-.
      apply in_map_iff in Hin as [fl [<- Hin]].
      rewrite numpy_add_1_below in Hi by now apply Hb.
      intros Hin'. apply in_map_iff in Hin' as [fl' [E' Hfl']].
      specialize (Hub fl' Hfl'). lia.
    + rewrite (max_food_id_text conn Hne Ha) in Hm. discriminate.
Qed.

(* ================================================================= *)
(** ** The claim form *)

Lemma claim_form_submit_absent conn new_id f r s now :
  ~ In f (map fl_Food_ID (food_listings conn)) ->
  run (claim_form_submit new_id f r s now) conn = (Failure InvalidReference, conn).
Proof.
  intros H. unfold run, claim_form_submit, bind, run_query.
  apply food_exists_zero in H. rewrite H. reflexivity.
Qed.

Lemma claim_form_submit_stored conn new_id f r s now :
  In f (map fl_Food_ID (food_listings conn)) ->
  run (claim_form_submit new_id f r s now) conn
  = (Success tt,
     set_claims
       (claims conn ++ [mkClaim new_id f (adapt r) s (strftime_ymd_hms now)])
       conn).
Proof.
  intros H. unfold run, claim_form_submit, bind, run_query.
  destruct (Z.eqb_spec
              (sql_count (fun fl => fl_Food_ID fl =? f) (food_listings conn))
              0) as [E|E].
  - apply food_exists_zero in E. contradiction.
  - reflexivity.
Qed.

Lemma claim_section_run conn f r s now :
  run (claim_section f r s now) conn
  = match new_claim_id conn with
    | Success new_id =>
        run (claim_form_submit new_id f (numpy_int64 (r_Receiver_ID r)) s now)
            conn
    | Failure e => (Failure e, conn)
    end.
Proof.
  unfold run, claim_section, bind, evaluate. now destruct (new_claim_id conn).
Qed.

(** C7. The id the claim page computes is 1 when the claims relation is
    empty.  Over a claims relation with rows it depends on the type the
    loader declared for Claim_ID.  For an INTEGER column it is the greatest
    stored id plus one computed in 64 bits, so that the greatest 64-bit id is
    followed by the least one.  For a TEXT column, which is what the loader
    declares when the claims file has no row, the computation raises
    TypeError: after the first claim went into the relation loaded from such
    a file there is no next id, where the specification says 2. *)
Theorem new_claim_id_raises_after_first_claim_on_text_column :
  forall conn,
    match claims conn, claims_affinity conn with
    | [], _ => new_claim_id conn = Success 1
    | _ :: _, INTEGER =>
        exists m,
          In m (map c_Claim_ID (claims conn))
          /\ (forall c, In c (claims conn) -> c_Claim_ID c <= m)
          /\ new_claim_id conn
             = Success (if m <? int64_max then m + 1 else int64_min)
    | _ :: _, TEXT => new_claim_id conn = Failure TypeError
    end
    /\ (forall providers_df receivers_df food_listings_df food_id receiver_id
               status timestamp,
           let loaded :=
             init_db providers_df receivers_df food_listings_df [] in
           new_claim_id loaded = Success 1
           /\ new_claim_id
                (snd (run (add_claim_sql 1 food_id receiver_id status timestamp)
                          loaded))
              = Failure TypeError)
    /\ (forall ps rs fls food_id receiver_id status timestamp declared,
           new_claim_id
             (snd (run (add_claim_sql 1 food_id receiver_id status timestamp)
                       (mkStore ps rs fls [] declared INTEGER)))
           = Success 2)
    /\ new_claim_id
         (mkStore [P1] [R1] [rice 1 "2025-03-20"]
                  [claim_of 9223372036854775807 1] INTEGER INTEGER)
       = Success (-9223372036854775808).
Proof.
  intros conn. split; [|repeat split].
  destruct (claims conn) as [|c cs] eqn:Hc.
  - now apply new_claim_id_empty.
  - assert (Hne : claims conn <> []) by (rewrite Hc; discriminate).
    destruct (claims_affinity conn) eqn:Ha.
    + rewrite <- Hc. now apply new_claim_id_integer.
    + now apply new_claim_id_text.
Qed.



(* ================================================================= *)
(** ** Total food available *)

Lemma sum_step_Some l : forall total r,
  sum_step total l = Some r -> r = total + Zsum l.
Proof.
  induction l as [|x l IH]; intros total r; simpl.
  - intros [= <-]. lia.
  - destruct (fits_int64 (total + x)); [|discriminate].
    intros H. apply IH in H. lia.
Qed.

(** Quantities as the forms accept them, at least 0, never take a running
    total out of the 64-bit range unless the whole sum is out of it. *)
Lemma sum_step_nonneg l : forall total,
  0 <= total ->
  (forall x, In x l -> 0 <= x) ->
  total + Zsum l <= int64_max ->
  sum_step total l = Some (total + Zsum l).
Proof.
  induction l as [|x l IH]; intros total Ht Hl Hs; simpl in *.
  - f_equal. lia.
  - assert (Hx : 0 <= x) by (apply Hl; now left).
    assert (Hr : 0 <= Zsum l).
    { clear - Hl. induction l as [|y l IH]; simpl; [lia|].
      assert (0 <= y) by (apply Hl; right; now left).
      assert (0 <= Zsum l) by (apply IH; intros z [->|Hz]; apply Hl;
                               [now left|right; now right]).
      unfold Zsum in *. lia. }
    unfold Zsum in *.
    assert (F : fits_int64 (total + x) = true).
    { unfold fits_int64, int64_min, int64_max in *.
      apply andb_true_iff. split; apply Z.leb_le; lia. }
    rewrite F. rewrite IH; [f_equal; lia|lia|auto|lia].
Qed.

Lemma sql_sum_None l : sql_sum l = Success None <-> l = [].
Proof.
  destruct l as [|x l]; [simpl; tauto|]. unfold sql_sum.
  destruct (sum_step 0 (x :: l)); split; discriminate.
Qed.

Lemma sql_sum_cases l :
  l <> [] ->
  sql_sum l = Success (Some (Zsum l)) \/ sql_sum l = Failure IntegerOverflow.
Proof.
  destruct l as [|x l]; [congruence|]. intros _. unfold sql_sum.
  destruct (sum_step 0 (x :: l)) as [r|] eqn:E; [left|now right].
  apply sum_step_Some in E. now rewrite E.
Qed.

Lemma sql_sum_Some l n : sql_sum l = Success (Some n) -> l <> [] /\ n = Zsum l.
Proof.
  intros H. assert (Hne : l <> []) by (intros ->; discriminate).
  split; [exact Hne|].
  destruct (sql_sum_cases l Hne) as [E|E]; rewrite E in H; congruence.
Qed.

Lemma sql_sum_nonneg l :
  l <> [] -> (forall x, In x l -> 0 <= x) -> Zsum l <= int64_max ->
  sql_sum l = Success (Some (Zsum l)).
Proof.
  intros Hne Hl Hs. destruct l as [|x l]; [congruence|]. unfold sql_sum.
  rewrite (sum_step_nonneg (x :: l) 0); [reflexivity|lia|exact Hl|exact Hs].
Qed.

Lemma map_nil_iff {A B : Type} (f : A -> B) l : map f l = [] <-> l = [].
Proof. destruct l; simpl; split; congruence. Qed.

(** C10. Over an empty food_listings relation the total-food-available query
    yields NULL, not the number 0, and only there: a number it yields is the
    sum of the quantities of at least one listing.  With a listing stored it
    yields that sum or, when a running total leaves the 64-bit range, fails
    with SQLite's integer overflow; for quantities of at least 0 that add up
    to a 64-bit value it yields the sum. *)
Theorem total_food_available_null_on_empty :
  forall conn,
    (food_listings conn = [] <-> get_total_food_available_sql conn = Success None)
    /\ get_total_food_available_sql conn <>
       match food_listings conn with
       | [] => Success (Some 0)
       | _ :: _ => Success None
       end
    /\ (forall n,
           get_total_food_available_sql conn = Success (Some n) ->
           food_listings conn <> []
           /\ n = Zsum (map fl_Quantity (food_listings conn)))
    /\ (food_listings conn <> [] ->
        get_total_food_available_sql conn
        = Success (Some (Zsum (map fl_Quantity (food_listings conn))))
        \/ get_total_food_available_sql conn = Failure IntegerOverflow)
    /\ (food_listings conn <> [] ->
        (forall fl, In fl (food_listings conn) -> 0 <= fl_Quantity fl) ->
        Zsum (map fl_Quantity (food_listings conn)) <= int64_max ->
        get_total_food_available_sql conn
        = Success (Some (Zsum (map fl_Quantity (food_listings conn)))))
    /\ get_total_food_available_sql empty_store = Success None
    /\ get_total_food_available_sql one_listing_store = Success (Some 5)
    /\ get_total_food_available_sql
         (mkStore [P1] [R1]
            [ mkFoodListing 1 "Rice" 9223372036854775807 "2025-03-20"
                            (Integer 1) "Restaurant" "CityA" "Vegan" "Lunch";
              rice 2 "2025-03-21" ] [] INTEGER INTEGER)
       = Failure IntegerOverflow.
Proof.
  intros conn. unfold get_total_food_available_sql.
  set (q := map fl_Quantity (food_listings conn)).
  assert (Hq : q = [] <-> food_listings conn = []) by apply map_nil_iff.
  split; [rewrite sql_sum_None; tauto|].
  split.
  { destruct (food_listings conn) as [|fl fls] eqn:Hf.
    - assert (E : q = []) by (apply Hq; reflexivity).
      rewrite E. discriminate.
    - intros H. apply sql_sum_None in H. apply Hq in H. discriminate. }
  split.
  { intros n H. apply sql_sum_Some in H as [Hne ->]. split; [tauto|reflexivity]. }
  split; [intros H; apply sql_sum_cases; tauto|].
  split.
  { intros H Hpos Hs. apply sql_sum_nonneg; [tauto| |exact Hs].
    intros x Hx. apply in_map_iff in Hx as [fl [<- Hfl]]. now apply Hpos. }
  repeat split.
Qed.

(* ================================================================= *)
(** ** Mutation layer *)

Lemma add_food_listing_sql_appends conn i n q e p pt l ft mt :
  run (add_food_listing_sql i n q e p pt l ft mt) conn
  = (Success tt,
     set_food_listings
       (food_listings conn
        ++ [mkFoodListing i n q (strftime_ymd e) (adapt p) pt l ft mt]) conn).
Proof. reflexivity. Qed.

Lemma add_claim_sql_appends conn i f r s t :
  run (add_claim_sql i f r s t) conn
  = (Success tt,
     set_claims (claims conn ++ [mkClaim i f (adapt r) s (strftime_ymd_hms t)])
                conn).
Proof. reflexivity. Qed.

Lemma delete_food_listing_sql_run conn food_id :
  run (delete_food_listing_sql food_id) conn
  = (Success tt,
     mkStore (providers conn) (receivers conn)
       (filter (fun fl => negb (fl_Food_ID fl =? food_id)) (food_listings conn))
       (filter (fun c => negb (c_Food_ID c =? food_id)) (claims conn))
       (food_listings_affinity conn) (claims_affinity conn)).
Proof. reflexivity. Qed.

Lemma set_food_listings_same conn : set_food_listings (food_listings conn) conn = conn.
Proof. now destruct conn. Qed.

Lemma set_claims_same conn : set_claims (claims conn) conn = conn.
Proof. now destruct conn. Qed.

(** C3, as the specification states it, fails on the code: updating an id
    that is not stored succeeds. *)
Lemma update_absent_id_reports_no_error :
  ~ In 7 (map fl_Food_ID (food_listings one_listing_store))
  /\ fst (run (update_food_listing_sql 7 "Bread" 3 day0 "Vegan" "Dinner")
              one_listing_store)
     = Success tt
  /\ fst (run (update_food_listing_sql 7 "Bread" 3 day0 "Vegan" "Dinner")
              one_listing_store)
     <> Failure NotFound.
Proof.
  split; [|split].
  - simpl. intros [H|[]]. discriminate.
  - reflexivity.
  - discriminate.
Qed.

(** C3, amended. Updating a Food_ID that is not stored succeeds silently:
    no error is reported, zero rows change and the store stays as it was. *)
Theorem update_absent_id_is_silent_noop :
  forall conn food_id food_name quantity expiry_date food_type meal_type,
    ~ In food_id (map fl_Food_ID (food_listings conn)) ->
    run (update_food_listing_sql food_id food_name quantity expiry_date
                                 food_type meal_type) conn
    = (Success tt, conn).
Proof.
  intros conn i n q e ft mt H. unfold run, update_food_listing_sql, execute_dml.
  rewrite update_rows_absent by exact H.
  now rewrite set_food_listings_same.
Qed.

Lemma update_absent_id_is_silent_noop_witness :
  run (update_food_listing_sql 7 "Bread" 3 day0 "Vegan" "Dinner")
      one_listing_store
  = (Success tt, one_listing_store).
Proof.
  apply (update_absent_id_is_silent_noop one_listing_store 7).
  simpl. intros [H|[]]. discriminate.
Defined.

(** C5, as the specification states it, fails on the code for a store that
    holds a claim on a listing that is not stored, as the loader makes it of
    a claims file with such a row.  Deleting the id of that claim, which has
    no listing, removes a row and changes the store; deleting the stored
    listing leaves the other claim, which refers to no listing. *)
Lemma delete_meets_claims_without_listing :
  let conn :=
    init_db [P1] [R1] [rice_df 1 (mkDate 2025 3 20)]
            [claim_df 1 1; claim_df 2 9] in
  ~ In 9 (map fl_Food_ID (food_listings conn))
  /\ map c_Claim_ID (claims conn) = [1; 2]
  /\ map c_Claim_ID (claims (snd (run (delete_food_listing_sql 9) conn))) = [1]
  /\ snd (run (delete_food_listing_sql 9) conn) <> conn
  /\ food_listings (snd (run (delete_food_listing_sql 1) conn)) = []
  /\ map c_Food_ID (claims (snd (run (delete_food_listing_sql 1) conn))) = [9]
  /\ ~ no_orphan_claim (snd (run (delete_food_listing_sql 1) conn)).
Proof.
  cbv zeta. split; [simpl; intros [E|[]]; discriminate|].
  split; [reflexivity|]. split; [reflexivity|].
  split; [intros E; apply (f_equal claims) in E; discriminate|].
  split; [reflexivity|]. split; [reflexivity|].
  intros H.
  specialize (H (to_sql_claim (claim_df 2 9)) (or_introl eq_refl)).
  destruct H.
Qed.

(** C5, amended. Deleting a listing first deletes every claim with that
    Food_ID and then the listing; no error is reported.  Afterwards no claim carries the
    id, and if every claim referred to a stored listing before, every claim
    still does.  For an id without a listing the food_listings relation is
    untouched (and the whole store when no claim carries the id).  Deleting
    twice leaves the store deleting once leaves. *)
Theorem delete_listing_cascades_and_is_idempotent :
  forall conn food_id,
    let after := snd (run (delete_food_listing_sql food_id) conn) in
    run (delete_food_listing_sql food_id) conn
    = run (execute_dml (fun s =>
             set_food_listings
               (filter (fun fl => negb (fl_Food_ID fl =? food_id))
                       (food_listings s)) s))
          (snd (run (execute_dml (fun s =>
             set_claims
               (filter (fun c => negb (c_Food_ID c =? food_id)) (claims s)) s))
             conn))
    /\ fst (run (delete_food_listing_sql food_id) conn) = Success tt
    /\ (forall c, In c (claims after) <->
                  In c (claims conn) /\ c_Food_ID c <> food_id)
    /\ (forall fl, In fl (food_listings after) <->
                   In fl (food_listings conn) /\ fl_Food_ID fl <> food_id)
    /\ (no_orphan_claim conn -> no_orphan_claim after)
    /\ (~ In food_id (map fl_Food_ID (food_listings conn)) ->
        food_listings after = food_listings conn)
    /\ (~ In food_id (map fl_Food_ID (food_listings conn)) ->
        ~ In food_id (map c_Food_ID (claims conn)) -> after = conn)
    /\ run (delete_food_listing_sql food_id) after = (Success tt, after).
Proof.
  intros conn i after. subst after.
  rewrite delete_food_listing_sql_run. simpl.
  assert (Hc : forall c,
             In c (filter (fun c => negb (c_Food_ID c =? i)) (claims conn))
             <-> In c (claims conn) /\ c_Food_ID c <> i).
  { intros c. rewrite filter_In, negb_true_iff, Z.eqb_neq. tauto. }
  assert (Hf : forall fl,
             In fl (filter (fun fl => negb (fl_Food_ID fl =? i))
                           (food_listings conn))
             <-> In fl (food_listings conn) /\ fl_Food_ID fl <> i).
  { intros fl. rewrite filter_In, negb_true_iff, Z.eqb_neq. tauto. }
  split; [reflexivity|]. split; [reflexivity|].
  split; [exact Hc|]. split; [exact Hf|].
  split; [|split; [|split]].
  - intros Hno c Hin. simpl in *. apply Hc in Hin as [Hin Hne].
    specialize (Hno c Hin). apply in_map_iff in Hno as [fl [E Hfl]].
    apply in_map_iff. exists fl. split; [exact E|]. apply Hf. split; congruence.
  - intros H. now apply filter_absent.
  - intros H1 H2. rewrite (filter_absent fl_Food_ID) by exact H1.
    rewrite (filter_absent c_Food_ID) by exact H2. now destruct conn.
  - rewrite delete_food_listing_sql_run. simpl. now rewrite !filter_idem.
Qed.

Lemma delete_listing_cascades_and_is_idempotent_witness :
  snd (run (delete_food_listing_sql 1) one_listing_store)
  = mkStore [P1] [R1] [] [] INTEGER INTEGER
  /\ snd (run (delete_food_listing_sql 7) one_listing_store) = one_listing_store.
Proof.
  split.
  - reflexivity.
  - destruct (delete_listing_cascades_and_is_idempotent one_listing_store 7)
      as (_ & _ & _ & _ & _ & _ & H & _).
    apply H; simpl; intros [E|[]]; discriminate.
Defined.

(** C4, as the specification states it, fails on the code: an insert under
    a key that is already stored is accepted, for listings and for claims, and
    the key is stored twice afterwards. *)
Lemma duplicate_key_insert_is_accepted :
  let add_l :=
    add_food_listing_sql 1 "Rice" 5 day0 (py_int 1) "Restaurant" "CityA"
                         "Vegan" "Lunch" in
  let add_c := add_claim_sql 1 1 (py_int 1) "Pending" noon0 in
  keys_unique one_listing_store
  /\ fst (run add_l one_listing_store) = Success tt
  /\ map fl_Food_ID (food_listings (snd (run add_l one_listing_store))) = [1; 1]
  /\ ~ keys_unique (snd (run add_l one_listing_store))
  /\ fst (run add_c one_listing_store) = Success tt
  /\ map c_Claim_ID (claims (snd (run add_c one_listing_store))) = [1; 1]
  /\ ~ keys_unique (snd (run add_c one_listing_store))
  /\ ~ keys_unique
       (run_dmls [AddFoodListing 1 "Rice" 5 day0 (py_int 1) "Restaurant"
                                 "CityA" "Vegan" "Lunch"] one_listing_store).
Proof.
  assert (D : ~ NoDup [1; 1]).
  { intros H. inversion H as [|? ? Hin _]; subst. apply Hin. now left. }
  cbv zeta. unfold keys_unique. simpl.
  split; [split; repeat constructor; simpl; tauto|].
  split; [reflexivity|]. split; [reflexivity|].
  split; [intros [H _]; now apply D|].
  split; [reflexivity|]. split; [reflexivity|].
  split; [intros [_ H]; now apply D|].
  intros [H _]; now apply D.
Qed.

Lemma NoDup_snoc_inv {A : Type} (l : list A) x : NoDup (l ++ [x]) -> ~ In x l.
Proof.
  intros H Hin. apply NoDup_remove_2 in H. apply H.
  rewrite app_nil_r. exact Hin.
Qed.

Lemma raises_false {A : Type} (o : outcome A) :
  raises o = false -> exists a, o = Success a.
Proof. destruct o as [a|e]; [eauto|discriminate]. Qed.

Lemma ui_step_keys_unique conn conn' :
  keys_unique conn -> below_int64_max conn -> ui_step conn conn' ->
  keys_unique conn'.
Proof.
  intros [Hf Hc] [Bf Bc] Hstep. destruct Hstep as [a Hoff].
  destruct a as [i n q e p ft mt|i n q e ft mt|i|f r s now]; simpl in *.
  - unfold add_listing_form_submit.
    destruct (String.eqb n "" || (q <=? 0)); simpl; [now split|].
    destruct (new_food_id_min_value conn) as [min_value|] eqn:Hm;
      [|discriminate].
    apply andb_true_iff in Hoff as [Hi _]. apply Z.leb_le in Hi.
    split; simpl; [|exact Hc].
    rewrite map_app. simpl. apply NoDup_snoc; [exact Hf|].
    now apply (above_min_value_fresh conn min_value).
  - split; simpl; [|exact Hc]. now rewrite update_rows_ids.
  - split; simpl; now apply NoDup_map_filter.
  - apply andb_true_iff in Hoff as [Hr _]. apply negb_true_iff in Hr.
    apply raises_false in Hr as [new_id Hn].
    change (keys_unique (snd (run (claim_section f r s now) conn))).
    rewrite claim_section_run, Hn.
    destruct (in_dec Z.eq_dec f (map fl_Food_ID (food_listings conn))) as [H|H].
    + rewrite claim_form_submit_stored by exact H.
      split; simpl; [exact Hf|].
      rewrite map_app. simpl. apply NoDup_snoc; [exact Hc|].
      now apply new_claim_id_fresh.
    + rewrite claim_form_submit_absent by exact H. now split.
Qed.

(** The bound is needed: from a store whose greatest Claim_ID is the
    greatest 64-bit value, two claims submitted through the form are stored
    under the same id, the least 64-bit value. *)
Example claim_ids_collide_after_wrap :
  let conn :=
    mkStore [P1] [R1] [rice 1 "2025-03-20"] [claim_of 9223372036854775807 1]
            INTEGER INTEGER in
  let submit := handle (SubmitClaim 1 R1 "Pending" noon0) in
  keys_unique conn
  /\ offered conn (SubmitClaim 1 R1 "Pending" noon0) = true
  /\ offered (snd (submit conn)) (SubmitClaim 1 R1 "Pending" noon0) = true
  /\ map c_Claim_ID (claims (snd (submit (snd (submit conn)))))
     = [9223372036854775807; -9223372036854775808; -9223372036854775808].
Proof.
  cbv zeta. split; [|repeat split].
  split; simpl; repeat constructor; simpl; tauto.
Qed.

(** C4, amended. An insert is never refused: for any key the statement
    succeeds and appends its row, so that a key stored already is stored
    twice afterwards; no IntegrityError is reported.  The keys are kept unique
    by the pages instead, whose forms insert above the greatest stored id:
    from a store with unique Food_ID and Claim_ID values, every sequence of
    form actions that each start with the stored ids below the greatest
    64-bit value leads to a store with unique ones. *)
Theorem inserts_append_and_form_actions_keep_keys_unique :
  (forall conn i n q e p pt l ft mt,
      let add := add_food_listing_sql i n q e p pt l ft mt in
      fst (run add conn) = Success tt
      /\ map fl_Food_ID (food_listings (snd (run add conn)))
         = map fl_Food_ID (food_listings conn) ++ [i]
      /\ claims (snd (run add conn)) = claims conn
      /\ (keys_unique (snd (run add conn)) <->
          keys_unique conn /\ ~ In i (map fl_Food_ID (food_listings conn))))
  /\ (forall conn i f r s t,
         let add := add_claim_sql i f r s t in
         fst (run add conn) = Success tt
         /\ map c_Claim_ID (claims (snd (run add conn)))
            = map c_Claim_ID (claims conn) ++ [i]
         /\ food_listings (snd (run add conn)) = food_listings conn
         /\ (keys_unique (snd (run add conn)) <->
             keys_unique conn /\ ~ In i (map c_Claim_ID (claims conn))))
  /\ (forall conn conn',
         keys_unique conn -> ui_steps below_int64_max conn conn' ->
         keys_unique conn').
Proof.
  split; [|split].
  - intros conn i n q e p pt l ft mt add. subst add.
    rewrite add_food_listing_sql_appends. unfold keys_unique. simpl.
    rewrite map_app. simpl.
    split; [reflexivity|]. split; [reflexivity|]. split; [reflexivity|].
    split.
    + intros [H Hc]. split; [split; [|exact Hc]|].
      * now apply NoDup_app_remove_r in H.
      * now apply NoDup_snoc_inv.
    + intros [[H Hc] Hi]. split; [|exact Hc]. now apply NoDup_snoc.
  - intros conn i f r s t add. subst add.
    rewrite add_claim_sql_appends. unfold keys_unique. simpl.
    rewrite map_app. simpl.
    split; [reflexivity|]. split; [reflexivity|]. split; [reflexivity|].
    split.
    + intros [Hf H]. split; [split; [exact Hf|]|].
      * now apply NoDup_app_remove_r in H.
      * now apply NoDup_snoc_inv.
    + intros [[Hf H] Hi]. split; [exact Hf|]. now apply NoDup_snoc.
  - intros conn conn' Hu Hsteps. induction Hsteps as [|c1 c2 c3 Hb H12 _ IH].
    + exact Hu.
    + apply IH. eapply ui_step_keys_unique; eauto.
Qed.

Lemma inserts_append_and_form_actions_keep_keys_unique_witness :
  keys_unique
    (snd (handle (SubmitClaim 1 R1 "Completed" noon0)
            (snd (handle (AddListing 2 "Bread" 3 day0 P1 "Vegan" "Dinner")
                         one_listing_store)))).
Proof.
  assert (B : forall conn,
             forallb (fun fl => fl_Food_ID fl <? int64_max) (food_listings conn)
             && forallb (fun c => c_Claim_ID c <? int64_max) (claims conn)
             = true -> below_int64_max conn).
  { intros conn H. apply andb_true_iff in H as [H1 H2].
    rewrite forallb_forall in H1, H2.
    split; intros x Hx; apply Z.ltb_lt; auto. }
  destruct inserts_append_and_form_actions_keep_keys_unique as (_ & _ & H).
  apply (H one_listing_store).
  - split; simpl; repeat constructor; simpl; tauto.
  - eapply ui_steps_cons;
      [apply B; reflexivity
      |exact (ui_step_intro one_listing_store
                (AddListing 2 "Bread" 3 day0 P1 "Vegan" "Dinner") eq_refl)|].
    eapply ui_steps_cons; [apply B; reflexivity| |apply ui_steps_refl].
    apply (ui_step_intro _ (SubmitClaim 1 R1 "Completed" noon0)). reflexivity.
Defined.

(* ================================================================= *)
(** ** Joins *)

Lemma inner_join_In {A B : Type} (on : A -> B -> bool) la lb a b :
  In (a, b) (inner_join on la lb) <-> In a la /\ In b lb /\ on a b = true.
Proof.
  unfold inner_join. rewrite in_flat_map. split.
  - intros [a' [Ha Hin]]. apply in_map_iff in Hin as [b' [E Hb]].
    inversion E; subst. apply filter_In in Hb. tauto.
  - intros (Ha & Hb & Hon). exists a. split; [exact Ha|].
    apply in_map. apply filter_In. tauto.
Qed.

Lemma left_join_fst {A B : Type} (on : A -> B -> bool) la lb x :
  In x (left_join on la lb) -> In (fst x) la.
Proof.
  unfold left_join. rewrite in_flat_map. intros [a [Ha Hin]].
  destruct (filter (on a) lb) as [|b m].
  - destruct Hin as [<-|[]]. exact Ha.
  - apply in_map_iff in Hin as [b' [<- _]]. exact Ha.
Qed.

Lemma left_join_covers {A B : Type} (on : A -> B -> bool) la lb a :
  In a la -> exists ob, In (a, ob) (left_join on la lb).
Proof.
  intros Ha. unfold left_join.
  destruct (filter (on a) lb) as [|b m] eqn:E.
  - exists None. apply in_flat_map. exists a. rewrite E. simpl. auto.
  - exists (Some b). apply in_flat_map. exists a. rewrite E. simpl. auto.
Qed.

Lemma id_eqb_spec v k : id_eqb v k = true <-> v = Integer k.
Proof.
  destruct v as [z|bytes]; simpl.
  - rewrite Z.eqb_eq. split; congruence.
  - split; discriminate.
Qed.

Lemma id_eqb_Integer z k : id_eqb (Integer z) k = (z =? k).
Proof. reflexivity. Qed.

Lemma id_eqb_adapt_numpy z k : id_eqb (adapt (numpy_int64 z)) k = false.
Proof. reflexivity. Qed.

Lemma filter_none {A : Type} (w : A -> bool) l :
  (forall x, In x l -> w x = false) -> filter w l = [].
Proof.
  induction l as [|x l IH]; simpl; intros H; [reflexivity|].
  rewrite (H x (or_introl eq_refl)). apply IH. intros y Hy. apply H. now right.
Qed.

(** Joins on a key: an ON clause that holds exactly when the key of the left
    row equals the key of the right row, the right keys being unique. *)
Section KeyedJoin.
Context {A B K : Type} (on : A -> B -> bool) (ka : A -> K) (kb : B -> K).
Hypothesis on_spec : forall a b, on a b = true <-> ka a = kb b.

Lemma filter_key_cases a lb :
  NoDup (map kb lb) ->
  (filter (on a) lb = [] /\ ~ In (ka a) (map kb lb))
  \/ (exists b, filter (on a) lb = [b] /\ In (ka a) (map kb lb)).
Proof.
  induction lb as [|x lb IH]; simpl; intros Hnd; [left; tauto|].
  inversion Hnd as [|? ? Hx Hl]; subst.
  destruct (on a x) eqn:E.
  - right. exists x. apply on_spec in E. split; [|now left]. f_equal.
    apply filter_none. intros y Hy. destruct (on a y) eqn:E'; [|reflexivity].
    exfalso. apply on_spec in E'. apply Hx. rewrite <- E, E'. now apply in_map.
  - destruct (IH Hl) as [[H1 H2]|[b [H1 H2]]].
    + left. split; [exact H1|]. intros [H|H]; [|contradiction].
      symmetry in H. apply on_spec in H. congruence.
    + right. exists b. split; [exact H1|now right].
Qed.

Lemma inner_join_unique la lb :
  NoDup (map kb lb) ->
  map fst (inner_join on la lb) = filter (fun a => existsb (on a) lb) la.
Proof.
  intros Hnd. unfold inner_join.
  induction la as [|a la IH]; simpl; [reflexivity|].
  rewrite map_app, IH, map_map. simpl.
  destruct (filter_key_cases a lb Hnd) as [[H1 H2]|[b [H1 H2]]].
  - rewrite H1. simpl.
    destruct (existsb (on a) lb) eqn:E; [|reflexivity].
    exfalso. apply existsb_exists in E as [b [Hb Hk]]. apply H2.
    apply on_spec in Hk. rewrite Hk. now apply in_map.
  - rewrite H1. simpl.
    destruct (existsb (on a) lb) eqn:E; [reflexivity|].
    exfalso. assert (Hb : In b (filter (on a) lb)) by (rewrite H1; now left).
    apply filter_In in Hb as [Hb Hk].
    assert (existsb (on a) lb = true) by (apply existsb_exists; now exists b).
    congruence.
Qed.

Lemma inner_join_total la lb :
  NoDup (map kb lb) ->
  (forall a, In a la -> In (ka a) (map kb lb)) ->
  map fst (inner_join on la lb) = la.
Proof.
  intros Hnd Hall. rewrite inner_join_unique by exact Hnd.
  induction la as [|a la IH]; simpl; [reflexivity|].
  assert (E : existsb (on a) lb = true).
  { apply existsb_exists. specialize (Hall a (or_introl eq_refl)).
    apply in_map_iff in Hall as [b [Hk Hb]]. exists b. split; [exact Hb|].
    apply on_spec. congruence. }
  rewrite E. f_equal. apply IH. intros x Hx. apply Hall. now right.
Qed.
End KeyedJoin.

(** The two kinds of ON clause of the program: integer column against
    integer column, and a stored id against the INTEGER id of providers or
    receivers. *)
Lemma inner_join_unique_key {A B : Type} (ka : A -> Z) (kb : B -> Z) la lb :
  NoDup (map kb lb) ->
  map fst (inner_join (fun a b => ka a =? kb b) la lb)
  = filter (fun a => existsb (fun b => ka a =? kb b) lb) la.
Proof.
  apply (inner_join_unique (fun a b => ka a =? kb b) ka kb).
  intros a b. apply Z.eqb_eq.
Qed.

Lemma NoDup_map_Integer {B : Type} (kb : B -> Z) lb :
  NoDup (map kb lb) -> NoDup (map (fun b => Integer (kb b)) lb).
Proof.
  induction lb as [|b lb IH]; simpl; intros H; [constructor|].
  inversion H as [|? ? Hb Hl]; subst. constructor; [|now apply IH].
  intros Hin. apply Hb. apply in_map_iff in Hin as [b' [E Hb']].
  injection E as E. rewrite <- E. now apply in_map.
Qed.

Lemma inner_join_total_id {A B : Type} (ka : A -> sql_value) (kb : B -> Z)
    la lb :
  NoDup (map kb lb) ->
  (forall a, In a la -> In (ka a) (map (fun b => Integer (kb b)) lb)) ->
  map fst (inner_join (fun a b => id_eqb (ka a) (kb b)) la lb) = la.
Proof.
  intros Hnd Hall.
  apply (inner_join_total (fun a b => id_eqb (ka a) (kb b)) ka
                          (fun b => Integer (kb b))).
  - intros a b. apply id_eqb_spec.
  - now apply NoDup_map_Integer.
  - exact Hall.
Qed.

Lemma StronglySorted_impl {A : Type} (R S : A -> A -> Prop) l :
  (forall a b, R a b -> S a b) -> StronglySorted R l -> StronglySorted S l.
Proof.
  intros HRS. induction 1 as [|a l Hl IH Hall]; constructor; auto.
  eapply Forall_impl; [|exact Hall]. intros b. apply HRS.
Qed.

(* ================================================================= *)
(** ** The filtered listing table *)

Lemma selection_matchesb_spec selected value :
  selection_matchesb selected value = true <-> selection_matches selected value.
Proof.
  unfold selection_matchesb, selection_matches.
  rewrite orb_true_iff, !String.eqb_eq. tauto.
Qed.

Lemma filter_conjuncts_spec sc spt sft smt fl :
  forallb (fun w => w fl) (filter_conjuncts sc spt sft smt)
  = listing_matchesb sc spt sft smt fl.
Proof.
  unfold filter_conjuncts, listing_matchesb, selection_matchesb.
  destruct (String.eqb sc "All"), (String.eqb spt "All"),
    (String.eqb sft "All"), (String.eqb smt "All"); simpl;
    rewrite ?andb_true_r, ?andb_assoc; reflexivity.
Qed.

Lemma listing_row_order_spec a b :
  listing_row_order a b = true <-> expiry_then_name a b.
Proof.
  unfold listing_row_order, text_asc2, expiry_then_name, text_lt, text_le.
  simpl. rewrite orb_true_iff, andb_true_iff, String.eqb_eq. tauto.
Qed.

Lemma filter_query_perm sc spt sft smt conn :
  Permutation (filter_query sc spt sft smt conn)
    (map select_listing_row
       (filter (fun x => listing_matchesb sc spt sft smt (fst x))
          (inner_join (fun fl p => id_eqb (fl_Provider_ID fl) (p_Provider_ID p))
                      (food_listings conn) (providers conn)))).
Proof.
  unfold filter_query.
  rewrite (filter_ext _ (fun x => listing_matchesb sc spt sft smt (fst x)))
    by (intros x; apply filter_conjuncts_spec).
  apply Permutation_sym, order_by_perm.
Qed.

(** The rows of the table: a listing that passes the select boxes, with the
    Name and Contact of the provider whose INTEGER Provider_ID it stores. *)
Lemma filter_query_rows sc spt sft smt conn row :
  In row (filter_query sc spt sft smt conn)
  <-> exists fl p,
        In fl (food_listings conn) /\ In p (providers conn)
        /\ fl_Provider_ID fl = Integer (p_Provider_ID p)
        /\ selection_matches sc (fl_Location fl)
        /\ selection_matches spt (fl_Provider_Type fl)
        /\ selection_matches sft (fl_Food_Type fl)
        /\ selection_matches smt (fl_Meal_Type fl)
        /\ row = mkListingRow (fl_Food_ID fl) (fl_Food_Name fl) (fl_Quantity fl)
                              (fl_Expiry_Date fl) (fl_Provider_Type fl)
                              (fl_Location fl) (fl_Food_Type fl)
                              (fl_Meal_Type fl) (p_Name p) (p_Contact p).
Proof.
  assert (Hperm : forall l1 l2 : list listing_row,
             Permutation l1 l2 -> (In row l1 <-> In row l2)).
  { intros l1 l2 H. split; apply Permutation_in;
      [exact H|now apply Permutation_sym]. }
  rewrite (Hperm _ _ (filter_query_perm sc spt sft smt conn)). clear Hperm.
  rewrite in_map_iff. split.
  - intros [[fl p] [<- Hin]]. apply filter_In in Hin as [Hj Hm].
    apply inner_join_In in Hj as (Hfl & Hp & Hon). apply id_eqb_spec in Hon.
    simpl in Hm. unfold listing_matchesb in Hm.
    rewrite !andb_true_iff, !selection_matchesb_spec in Hm.
    exists fl, p. repeat split; tauto.
  - intros (fl & p & Hfl & Hp & Hon & H1 & H2 & H3 & H4 & ->).
    exists (fl, p). split; [reflexivity|]. apply filter_In. split.
    + apply inner_join_In. rewrite id_eqb_spec. tauto.
    + simpl. unfold listing_matchesb.
      rewrite !andb_true_iff, !selection_matchesb_spec. tauto.
Qed.

(** The rows come in the order of the stored Expiry_Date text, then of the
    Food_Name. *)
Lemma filter_query_sorted sc spt sft smt conn :
  StronglySorted expiry_then_name (filter_query sc spt sft smt conn).
Proof.
  unfold filter_query.
  eapply StronglySorted_impl; [intros a b; apply listing_row_order_spec|].
  apply order_by_strongly_sorted.
  - intros a b. apply text_asc2_total.
  - intros a b c. apply text_asc2_trans.
Qed.

(* ================================================================= *)
(** ** Providers and receivers per city *)

Lemma city_key_provider pr : city_key pr = Some (p_City (fst pr)).
Proof. reflexivity. Qed.

Lemma group_keys_In k l : In k (group_keys l) <-> In k l.
Proof. unfold group_keys. now rewrite order_by_In, nodup_In. Qed.

Lemma city_row_order_spec a b :
  city_row_order a b = true <-> providers_then_receivers_desc a b.
Proof.
  unfold city_row_order, count_desc2, providers_then_receivers_desc. simpl.
  rewrite orb_true_iff, andb_true_iff, Z.ltb_lt, Z.eqb_eq, Z.leb_le. tauto.
Qed.

(** The cities of the result are the cities of the providers. *)
Lemma per_city_rows_are_provider_cities conn k :
  In k (map City (get_providers_receivers_per_city_sql conn))
  <-> exists p, In p (providers conn) /\ k = Some (p_City p).
Proof.
  unfold get_providers_receivers_per_city_sql.
  set (joined := left_join _ _ _).
  rewrite in_map_iff. split.
  - intros [row [<- Hin]]. rewrite order_by_In in Hin.
    apply in_map_iff in Hin as [k' [<- Hk]]. simpl.
    rewrite group_keys_In in Hk. apply in_map_iff in Hk as [pr [<- Hpr]].
    exists (fst pr). split; [|reflexivity].
    eapply left_join_fst. exact Hpr.
  - intros [p [Hp ->]].
    exists (city_group joined (Some (p_City p))). split; [reflexivity|].
    rewrite order_by_In. apply in_map. rewrite group_keys_In.
    destruct (left_join_covers
                (fun p r => String.eqb (p_City p) (r_City r))
                (providers conn) (receivers conn) p Hp) as [ob Hob].
    apply in_map_iff. exists (p, ob). split; [reflexivity|exact Hob].
Qed.

Lemma per_city_rows_sorted conn :
  StronglySorted providers_then_receivers_desc
                 (get_providers_receivers_per_city_sql conn).
Proof.
  unfold get_providers_receivers_per_city_sql.
  eapply StronglySorted_impl; [intros a b; apply city_row_order_spec|].
  apply order_by_strongly_sorted.
  - intros a b. apply count_desc2_total.
  - intros a b c. apply count_desc2_trans.
Qed.

(** The worked example of the specification. *)
Example per_city_two_providers_one_receiver :
  get_providers_receivers_per_city_sql (mkStore [P1; P2] [R1] [] [] TEXT TEXT)
  = [ mkCityRow (Some "CityA"%string) 1 1; mkCityRow (Some "CityB"%string) 1 0 ].
Proof. reflexivity. Qed.

(** C1. The query joins providers LEFT JOIN receivers, so its rows are the
    provider cities only: a city that appears among the receivers and among no
    provider yields no row, where the specification asks for a row with
    provider count 0. *)
Theorem receiver_only_city_yields_no_row :
  forall conn r,
    In r (receivers conn) ->
    (forall p, In p (providers conn) -> p_City p <> r_City r) ->
    ~ In (Some (r_City r)) (map City (get_providers_receivers_per_city_sql conn)).
Proof.
  intros conn r _ Hnone Hin.
  apply per_city_rows_are_provider_cities in Hin as [p [Hp E]].
  apply (Hnone p Hp). congruence.
Qed.

Lemma receiver_only_city_yields_no_row_witness :
  get_providers_receivers_per_city_sql (mkStore [P1] [R1; R2] [] [] TEXT TEXT)
  = [ mkCityRow (Some "CityA"%string) 1 1 ]
  /\ ~ In (Some "CityC"%string)
          (map City (get_providers_receivers_per_city_sql
                       (mkStore [P1] [R1; R2] [] [] TEXT TEXT))).
Proof.
  split; [reflexivity|].
  apply (receiver_only_city_yields_no_row (mkStore [P1] [R1; R2] [] [] TEXT TEXT) R2).
  - simpl. right. now left.
  - simpl. intros p [<-|[]]. discriminate.
Defined.

(* ================================================================= *)
(** ** Food nearing expiry *)

Lemma string_compare_append_gt s t :
  t <> EmptyString -> String.compare (s ++ t) s = Gt.
Proof.
  intros Ht. induction s as [|a s IH]; simpl.
  - destruct t; [contradiction|reflexivity].
  - now rewrite ascii_compare_refl.
Qed.

Lemma string_leb_append_false s t :
  t <> EmptyString -> String.leb (s ++ t) s = false.
Proof.
  intros Ht. unfold String.leb. now rewrite string_compare_append_gt.
Qed.

Lemma string_ltb_append s t :
  t <> EmptyString -> String.ltb s (s ++ t) = true.
Proof.
  intros Ht. unfold String.ltb.
  rewrite String.compare_antisym, string_compare_append_gt by exact Ht.
  reflexivity.
Qed.

Lemma nearing_expiry_rows conn today days e :
  In e (get_food_nearing_expiry_sql today days conn)
  <-> exists fl,
        In fl (food_listings conn)
        /\ text_lt (strftime_ymd today) (fl_Expiry_Date fl)
        /\ text_le (fl_Expiry_Date fl) (sqlite_DATE_plus_days today days)
        /\ e = select_expiry_row fl.
Proof.
  unfold get_food_nearing_expiry_sql. rewrite order_by_In, in_map_iff.
  unfold text_lt, text_le. split.
  - intros [fl [<- Hin]]. apply filter_In in Hin as [Hin Hw].
    unfold nearing_expiry_where in Hw. apply andb_true_iff in Hw.
    exists fl. tauto.
  - intros (fl & Hin & H1 & H2 & ->). exists fl. split; [reflexivity|].
    apply filter_In. split; [exact Hin|].
    unfold nearing_expiry_where. now rewrite H1, H2.
Qed.

Lemma nearing_expiry_sorted conn today days :
  StronglySorted (fun a b => text_le (e_Expiry_Date a) (e_Expiry_Date b))
                 (get_food_nearing_expiry_sql today days conn).
Proof.
  unfold get_food_nearing_expiry_sql.
  apply (order_by_strongly_sorted
           (fun a b => String.leb (e_Expiry_Date a) (e_Expiry_Date b))).
  - intros a b. apply String.leb_total.
  - intros a b c. apply string_leb_trans.
Qed.

(** The query at the listings the loader stored and at the same dates written
    by the add-listing statement, for today = 2025-03-10 and N = 7.  Of the
    loaded rows the one expiring today is returned and the one expiring on
    today + 7 is not; of the added rows exactly the one expiring on today + 7
    is returned. *)
Example nearing_expiry_loaded_and_added_rows :
  let df (i : Z) (d : date) :=
    mkFoodListing_df i "Rice" 5 (mkDatetime d 0 0 0) 1 "Restaurant" "CityA"
                     "Vegan" "Lunch" in
  let loaded :=
    init_db [P1] [R1]
            [df 1 day0; df 2 (mkDate 2025 3 17); df 3 (mkDate 2025 3 18)] [] in
  let add (i : Z) (d : date) :=
    add_food_listing_sql i "Rice" 5 d (numpy_int64 1) "Restaurant" "CityA"
                         "Vegan" "Lunch" in
  let added :=
    snd (run (add 1 day0 ;;; add 2 (mkDate 2025 3 17) ;;;
              add 3 (mkDate 2025 3 18)) empty_store) in
  add_days day0 7 = mkDate 2025 3 17
  /\ map e_Expiry_Date (get_food_nearing_expiry_sql day0 7 loaded)
     = ["2025-03-10 00:00:00"%string]
  /\ map e_Expiry_Date (get_food_nearing_expiry_sql day0 7 added)
     = ["2025-03-17"%string].
Proof. repeat split. Qed.

(** The upper bound of the query is the text YYYY-MM-DD of today + N and the
    loader stores an expiry date as the text YYYY-MM-DD HH:MM:SS, which sorts
    after it: a loaded listing expiring on today + N is never returned,
    whatever today and N are. *)
Lemma loaded_listing_expiring_on_last_day_is_excluded :
  forall today days providers_df receivers_df food_listings_df claims_df row,
    In row food_listings_df ->
    dt_date (df_Expiry_Date row) = add_days today days ->
    ~ In (select_expiry_row (to_sql_food_listing row))
         (get_food_nearing_expiry_sql today days
            (init_db providers_df receivers_df food_listings_df claims_df)).
Proof.
  intros today days ps rs fls cs row _ Hday Hin.
  apply nearing_expiry_rows in Hin as (fl & _ & _ & Hle & E).
  assert (Ee : fl_Expiry_Date fl = strftime_ymd_hms (df_Expiry_Date row)).
  { change (fl_Expiry_Date fl) with (e_Expiry_Date (select_expiry_row fl)).
    now rewrite <- E. }
  unfold text_le, sqlite_DATE_plus_days in Hle.
  rewrite Ee in Hle. unfold strftime_ymd_hms in Hle. rewrite Hday in Hle.
  rewrite string_leb_append_false in Hle; discriminate.
Qed.

(* ================================================================= *)
(** ** Claim status percentage, in exact arithmetic *)

Lemma Qsum_perm l1 l2 : Permutation l1 l2 -> (Qsum l1 == Qsum l2)%Q.
Proof.
  induction 1 as [|x l1 l2 _ IH|x y l|l1 l2 l3 _ IH1 _ IH2]; simpl.
  - reflexivity.
  - now rewrite IH.
  - ring.
  - now rewrite IH1.
Qed.

Lemma Qsum_exact_percentage (counts : list Z) total :
  (Qsum (map (fun c => exact_percentage c total) counts)
   == exact_percentage (Zsum counts) total)%Q.
Proof.
  unfold exact_percentage. induction counts as [|c counts IH]; simpl.
  - unfold Qdiv. ring.
  - rewrite IH. rewrite Z.mul_add_distr_r, inject_Z_plus. unfold Qdiv. ring.
Qed.

Lemma filter_length_split {A : Type} (w : A -> bool) l :
  List.length l
  = (List.length (filter w l) + List.length (filter (fun x => negb (w x)) l))%nat.
Proof.
  induction l as [|x l IH]; simpl; [reflexivity|].
  destruct (w x); simpl; lia.
Qed.

Lemma filter_filter_implied {A : Type} (w1 w2 : A -> bool) l :
  (forall x, w1 x = true -> w2 x = true) ->
  filter w1 (filter w2 l) = filter w1 l.
Proof.
  intros H. induction l as [|x l IH]; simpl; [reflexivity|].
  destruct (w2 x) eqn:E2; simpl; rewrite IH; [reflexivity|].
  destruct (w1 x) eqn:E1; [|reflexivity].
  apply H in E1. congruence.
Qed.

Lemma counts_by_key_sum {A : Type} (key : A -> string) keys : forall l,
  NoDup keys ->
  (forall x, In x l -> In (key x) keys) ->
  Zsum (map (fun k => sql_count (fun x => String.eqb (key x) k) l) keys)
  = Z.of_nat (List.length l).
Proof.
  induction keys as [|k keys IH]; intros l Hnd Hcov; simpl.
  - destruct l as [|x l]; [reflexivity|].
    destruct (Hcov x (or_introl eq_refl)).
  - inversion Hnd as [|? ? Hk Hnd']; subst.
    rewrite (filter_length_split (fun x => String.eqb (key x) k) l).
    rewrite Nat2Z.inj_add. unfold sql_count at 1. f_equal.
    rewrite <- (IH (filter (fun x => negb (String.eqb (key x) k)) l) Hnd').
    + f_equal. apply map_ext_in. intros k' Hk'. unfold sql_count.
      rewrite filter_filter_implied; [reflexivity|].
      intros x Hx. apply String.eqb_eq in Hx. apply negb_true_iff.
      apply String.eqb_neq. intros E. apply Hk. congruence.
    + intros x Hx. apply filter_In in Hx as [Hx Hne].
      destruct (Hcov x Hx) as [E|Hin]; [|exact Hin].
      rewrite E, String.eqb_refl in Hne. discriminate.
Qed.

Lemma status_counts_sum conn :
  Zsum (map (status_count conn) (status_groups conn)) = total_claims conn.
Proof.
  unfold status_groups, total_claims.
  assert (Hp : Permutation (nodup String.string_dec (map c_Status (claims conn)))
                 (order_by String.leb
                    (nodup String.string_dec (map c_Status (claims conn)))))
    by apply order_by_perm.
  transitivity (Z.of_nat (List.length (claims conn))).
  - apply (counts_by_key_sum c_Status).
    + eapply Permutation_NoDup; [exact Hp|]. apply NoDup_nodup.
    + intros c Hc. rewrite order_by_In, nodup_In. now apply in_map.
  - unfold sql_count. f_equal. clear Hp.
    induction (claims conn) as [|c l IH]; simpl; congruence.
Qed.

(** The exact quotients 100 * count / total over the statuses present add up
    to 100 for a non-empty claims relation, and come in descending order. *)
Lemma claim_status_percentage_exact_sum conn :
  claims conn <> [] ->
  (Qsum (map snd (claim_status_percentage_exact conn)) == 100)%Q.
Proof.
  intros Hne. unfold claim_status_percentage_exact.
  rewrite <- (Qsum_perm _ _ (Permutation_map snd (order_by_perm _ _))).
  rewrite map_map. simpl.
  rewrite <- (map_map (status_count conn)
                      (fun c => exact_percentage c (total_claims conn))).
  rewrite Qsum_exact_percentage, status_counts_sum.
  unfold exact_percentage.
  assert (Hpos : 0 < total_claims conn).
  { unfold total_claims, sql_count. destruct (claims conn); [congruence|].
    simpl. lia. }
  rewrite inject_Z_mult. field.
  intros H. apply (Qeq_bool_neq (inject_Z (total_claims conn)) 0%Q); [|exact H].
  unfold Qeq_bool, inject_Z. simpl. apply Z.eqb_neq. lia.
Qed.

Lemma claim_status_percentage_exact_sorted conn :
  Sorted (fun a b => (snd b <= snd a)%Q) (claim_status_percentage_exact conn).
Proof.
  unfold claim_status_percentage_exact.
  assert (H := order_by_sorted
                 (fun a b : string * Q => Qle_bool (snd b) (snd a))).
  eapply Sorted_ind with (P := fun l => Sorted _ l);
    [constructor| |apply H].
  - intros a l _ IH Hhd. constructor; [exact IH|].
    destruct Hhd; constructor. now apply Qle_bool_iff.
  - intros a b. rewrite !Qle_bool_iff.
    destruct (Qlt_le_dec (snd a) (snd b)); [right; now apply Qlt_le_weak|now left].
Qed.

(* ================================================================= *)
(** ** The counts of the per-city rows *)

Lemma left_join_Some {A B : Type} (on : A -> B -> bool) la lb a b :
  In (a, Some b) (left_join on la lb) <-> In a la /\ In b lb /\ on a b = true.
Proof.
  unfold left_join. rewrite in_flat_map. split.
  - intros [a' [Ha Hin]]. destruct (filter (on a') lb) as [|b' m] eqn:E.
    + destruct Hin as [Hin|[]]. discriminate.
    + apply in_map_iff in Hin as [b'' [Eq Hb]]. inversion Eq; subst.
      rewrite <- E in Hb. apply filter_In in Hb. tauto.
  - intros (Ha & Hb & Hon). exists a. split; [exact Ha|].
    assert (Hin : In b (filter (on a) lb)) by (apply filter_In; tauto).
    destruct (filter (on a) lb) as [|b' m]; [destruct Hin|].
    apply in_map_iff. exists b. split; [reflexivity|exact Hin].
Qed.

Lemma nodup_length_ext (l1 l2 : list Z) :
  (forall x, In x l1 <-> In x l2) ->
  List.length (nodup Z.eq_dec l1) = List.length (nodup Z.eq_dec l2).
Proof.
  intros H. apply Permutation_length. apply NoDup_Permutation.
  - apply NoDup_nodup.
  - apply NoDup_nodup.
  - intros x. rewrite !nodup_In. apply H.
Qed.

Lemma non_null_In {A : Type} (l : list (option A)) x :
  In x (non_null l) <-> In (Some x) l.
Proof.
  induction l as [|[a|] l IH]; simpl.
  - tauto.
  - rewrite IH. split; intros [H|H]; auto; left; congruence.
  - rewrite IH. split; [auto|]. intros [H|H]; [discriminate|exact H].
Qed.

Lemma opt_text_eqb_Some a b :
  opt_text_eqb (Some a) (Some b) = true <-> a = b.
Proof.
  unfold opt_text_eqb. destruct (opt_text_eq_dec (Some a) (Some b)) as [E|E].
  - split; [congruence|reflexivity].
  - split; [discriminate|]. intros ->. now contradiction E.
Qed.

(** X20. Each row carries a provider city, the number of distinct
    Provider_ID values among the providers of that city and the number of
    distinct Receiver_ID values among the receivers of that city. *)
Lemma per_city_row_counts conn row :
  In row (get_providers_receivers_per_city_sql conn) ->
  exists city,
    City row = Some city
    /\ (exists p, In p (providers conn) /\ p_City p = city)
    /\ NumProviders row
       = Z.of_nat (List.length (nodup Z.eq_dec
           (map p_Provider_ID
              (filter (fun p => String.eqb (p_City p) city) (providers conn)))))
    /\ NumReceivers row
       = Z.of_nat (List.length (nodup Z.eq_dec
           (map r_Receiver_ID
              (filter (fun r => String.eqb (r_City r) city) (receivers conn))))).
Proof.
  unfold get_providers_receivers_per_city_sql.
  set (on := fun p r => String.eqb (p_City p) (r_City r)).
  set (joined := left_join on (providers conn) (receivers conn)).
  rewrite order_by_In, in_map_iff. intros [k [<- Hk]].
  rewrite group_keys_In in Hk. apply in_map_iff in Hk as [pr0 [<- Hpr0]].
  rewrite city_key_provider. set (city := p_City (fst pr0)).
  assert (Hp0 : In (fst pr0) (providers conn))
    by (eapply left_join_fst; exact Hpr0).
  exists city. split; [reflexivity|]. split; [now exists (fst pr0)|].
  unfold city_group, count_distinct. simpl. split; f_equal.
  - apply nodup_length_ext. intros x.
    rewrite non_null_In, !in_map_iff. split.
    + intros [pr [E Hpr]]. apply filter_In in Hpr as [Hpr Hc].
      rewrite city_key_provider in Hc. apply opt_text_eqb_Some in Hc.
      exists (fst pr). split; [congruence|]. apply filter_In. split.
      * eapply left_join_fst. exact Hpr.
      * now apply String.eqb_eq.
    + intros [p [E Hp]]. apply filter_In in Hp as [Hp Hc].
      apply String.eqb_eq in Hc.
      destruct (left_join_covers on (providers conn) (receivers conn) p Hp)
        as [ob Hob].
      exists (p, ob). split; [simpl; congruence|]. apply filter_In.
      split; [exact Hob|]. rewrite city_key_provider.
      apply opt_text_eqb_Some. exact Hc.
  - apply nodup_length_ext. intros x.
    rewrite non_null_In, !in_map_iff. split.
    + intros [[p [r|]] [E Hpr]]; simpl in E; [|discriminate].
      apply filter_In in Hpr as [Hpr Hc].
      rewrite city_key_provider in Hc. apply opt_text_eqb_Some in Hc.
      simpl in Hc. apply left_join_Some in Hpr as (Hp & Hr & Hon).
      apply String.eqb_eq in Hon.
      exists r. split; [congruence|]. apply filter_In. split; [exact Hr|].
      apply String.eqb_eq. congruence.
    + intros [r [E Hr]]. apply filter_In in Hr as [Hr Hc].
      apply String.eqb_eq in Hc.
      exists (fst pr0, Some r). split; [simpl; congruence|].
      apply filter_In. split.
      * apply left_join_Some. split; [exact Hp0|]. split; [exact Hr|].
        apply String.eqb_eq. fold city. congruence.
      * rewrite city_key_provider. apply opt_text_eqb_Some. reflexivity.
Qed.

(* ================================================================= *)
(** ** Calendar arithmetic *)

Ltac div_lia := Z.div_mod_to_equations; lia.

Ltac date_facts :=
  unfold valid_date, four_digit_year; repeat split;
  apply Z.leb_le; vm_compute; reflexivity.

Ltac break_ifs :=
  repeat match goal with
         | |- context [if ?c then _ else _] => destruct c eqn:?
         | H : context [if ?c then _ else _] |- _ => destruct c eqn:?
         end;
  rewrite ?orb_true_iff, ?orb_false_iff, ?andb_true_iff, ?andb_false_iff,
    ?negb_true_iff, ?negb_false_iff, ?Z.eqb_eq, ?Z.eqb_neq, ?Z.leb_le,
    ?Z.leb_gt, ?Z.ltb_lt, ?Z.ltb_ge in *.

Lemma date_compare_lt a b :
  year a < year b
  \/ (year a = year b
      /\ (month a < month b \/ (month a = month b /\ day a < day b))) ->
  date_compare a b = Lt.
Proof.
  unfold date_compare, then_compare. intros H.
  destruct (Z.compare_spec (year a) (year b)); [|reflexivity|lia].
  destruct (Z.compare_spec (month a) (month b)); [|reflexivity|lia].
  apply Z.compare_lt_iff. lia.
Qed.

Lemma date_compare_antisym a b :
  date_compare b a = CompOpp (date_compare a b).
Proof.
  unfold date_compare, then_compare.
  rewrite (Z.compare_antisym (year a)), (Z.compare_antisym (month a)),
    (Z.compare_antisym (day a)).
  destruct (year a ?= year b), (month a ?= month b); reflexivity.
Qed.

Lemma date_compare_refl a : date_compare a a = Eq.
Proof. unfold date_compare. now rewrite !Z.compare_refl. Qed.

Lemma march_days_mono y1 y2 : y1 <= y2 -> march_days y1 <= march_days y2.
Proof. unfold march_days. intros H. div_lia. Qed.

Lemma march_view_doy_nonneg a z y mp doy : march_view a z y mp doy -> 0 <= doy.
Proof. intros [_ _ _ R L _ _ _]. div_lia. Qed.

Lemma march_view_year_le a1 z1 y1 mp1 doy1 a2 z2 y2 mp2 doy2 :
  march_view a1 z1 y1 mp1 doy1 -> march_view a2 z2 y2 mp2 doy2 ->
  z1 <= z2 -> y1 <= y2.
Proof.
  intros V1 V2 Hle.
  pose proof (march_view_doy_nonneg _ _ _ _ _ V1) as P1.
  destruct V1 as [_ _ _ _ _ _ Z1 _], V2 as [_ _ _ _ _ _ Z2 N2].
  destruct (Z_lt_le_dec y2 y1) as [Hlt|Hge]; [exfalso|exact Hge].
  pose proof (march_days_mono (y2 + 1) y1 ltac:(lia)). lia.
Qed.

Lemma march_view_month_le a1 z1 y mp1 doy1 a2 z2 mp2 doy2 :
  march_view a1 z1 y mp1 doy1 -> march_view a2 z2 y mp2 doy2 ->
  doy1 <= doy2 -> mp1 <= mp2.
Proof.
  intros [_ _ _ R1 L1 H1 _ _] [_ _ _ R2 L2 H2 _ _] Hle. div_lia.
Qed.

Lemma march_view_lt a1 z1 y1 mp1 doy1 a2 z2 y2 mp2 doy2 :
  march_view a1 z1 y1 mp1 doy1 -> march_view a2 z2 y2 mp2 doy2 ->
  z1 < z2 -> date_compare a1 a2 = Lt.
Proof.
  intros V1 V2 Hlt.
  pose proof (march_view_year_le _ _ _ _ _ _ _ _ _ _ V1 V2 ltac:(lia)) as Hy.
  assert (Hm : y1 < y2 \/ (y1 = y2 /\ doy1 < doy2 /\ mp1 <= mp2)).
  { destruct (Z.eq_dec y1 y2) as [E|E]; [right|lia]. subst y2.
    assert (doy1 < doy2)
      by (destruct V1 as [_ _ _ _ _ _ Z1 _], V2 as [_ _ _ _ _ _ Z2 _]; lia).
    repeat split; [assumption|].
    eapply march_view_month_le; [exact V1|exact V2|lia]. }
  destruct V1 as [Y1 M1 D1 R1 L1 H1 Z1 N1], V2 as [Y2 M2 D2 R2 L2 H2 Z2 N2].
  apply date_compare_lt. rewrite Y1, Y2, M1, M2, D1, D2.
  clear -Hm R1 R2.
  destruct (Z.ltb_spec0 mp1 10), (Z.ltb_spec0 mp2 10).
  all: destruct (Z.eq_dec mp1 mp2) as [E|E]; [subst mp2|]; lia.
Qed.

(** Two dates compare as their day numbers do. *)
Lemma march_view_compare a1 z1 y1 mp1 doy1 a2 z2 y2 mp2 doy2 :
  march_view a1 z1 y1 mp1 doy1 -> march_view a2 z2 y2 mp2 doy2 ->
  date_compare a1 a2 = (z1 ?= z2).
Proof.
  intros V1 V2. destruct (Z.compare_spec z1 z2) as [E|L|G].
  - subst z2.
    assert (y1 = y2) as ->.
    { pose proof (march_view_year_le _ _ _ _ _ _ _ _ _ _ V1 V2 ltac:(lia)).
      pose proof (march_view_year_le _ _ _ _ _ _ _ _ _ _ V2 V1 ltac:(lia)).
      lia. }
    assert (doy1 = doy2) as ->
      by (destruct V1 as [_ _ _ _ _ _ Z1 _], V2 as [_ _ _ _ _ _ Z2 _]; lia).
    assert (mp1 = mp2) as ->.
    { pose proof (march_view_month_le _ _ _ _ _ _ _ _ _ V1 V2 ltac:(lia)).
      pose proof (march_view_month_le _ _ _ _ _ _ _ _ _ V2 V1 ltac:(lia)).
      lia. }
    destruct V1 as [Y1 M1 D1 _ _ _ _ _], V2 as [Y2 M2 D2 _ _ _ _ _].
    unfold date_compare. rewrite Y1, Y2, M1, M2, D1, D2.
    now rewrite !Z.compare_refl.
  - eapply march_view_lt; eauto.
  - rewrite date_compare_antisym.
    erewrite (march_view_lt a2 z2); eauto.
Qed.

Lemma march_view_fields a z y mp doy :
  march_view a z y mp doy -> 1 <= month a <= 12 /\ 1 <= day a <= 31.
Proof.
  intros [_ M D R L H _ _]. rewrite M, D.
  destruct (Z.ltb_spec0 mp 10); div_lia.
Qed.

Lemma civil_from_days_view z :
  exists y mp doy, march_view (civil_from_days z) z y mp doy.
Proof.
  set (z' := z + 719468).
  set (era := z' / 146097).
  set (doe := z' - era * 146097).
  set (yoe := (doe - doe / 1460 + doe / 36524 - doe / 146096) / 365).
  set (doy := doe - (365 * yoe + yoe / 4 - yoe / 100)).
  set (mp := (5 * doy + 2) / 153).
  exists (yoe + era * 400), mp, doy.
  assert (Hdoe : 0 <= doe <= 146096) by (subst doe era; div_lia).
  assert (Hyoe : 0 <= yoe <= 399 /\ 0 <= doy <= 365
                 /\ doe < 365 * (yoe + 1) + (yoe + 1) / 4 - (yoe + 1) / 100
                          + (yoe + 1) / 400).
  { subst doy yoe. clearbody doe. clear -Hdoe. div_lia. }
  destruct Hyoe as (Hy & Hd & Hl).
  assert (Hmp : 0 <= mp <= 11
                /\ (153 * mp + 2) / 5 <= doy < (153 * (mp + 1) + 2) / 5).
  { subst mp. clearbody doy. clear -Hd. div_lia. }
  assert (Hm : march_days (yoe + era * 400) = era * 146097 + (doe - doy)
               /\ march_days (yoe + era * 400 + 1)
                  = era * 146097 + (365 * (yoe + 1) + (yoe + 1) / 4
                                    - (yoe + 1) / 100 + (yoe + 1) / 400)).
  { unfold march_days. subst doy. clearbody yoe era. clear -Hy. div_lia. }
  destruct Hm as [Hm1 Hm2].
  change (civil_from_days z)
    with (mkDate (if (if mp <? 10 then mp + 3 else mp - 9) <=? 2
                  then yoe + era * 400 + 1 else yoe + era * 400)
                 (if mp <? 10 then mp + 3 else mp - 9)
                 (doy - (153 * mp + 2) / 5 + 1)).
  split; cbn [year month day]; try tauto; try lia.
  destruct (Z.ltb_spec0 mp 10).
  - destruct (Z.leb_spec0 (mp + 3) 2); lia.
  - destruct (Z.leb_spec0 (mp - 9) 2); lia.
Qed.

Lemma valid_date_view a :
  valid_date a -> exists y mp doy, march_view a (days_from_civil a) y mp doy.
Proof.
  destruct a as [Y m d]. unfold valid_date, days_in_month, is_leap.
  cbn [year month day]. intros [Hm Hd].
  exists (if m <=? 2 then Y - 1 else Y),
         (if m <=? 2 then m + 9 else m - 3),
         ((153 * (if m <=? 2 then m + 9 else m - 3) + 2) / 5 + d - 1).
  split; unfold days_from_civil, march_days; cbn [year month day].
  all: break_ifs.
  all: div_lia.
Qed.

(** The two conversions are inverse to each other on the calendar, so
    [add_days] moves the day number by exactly [n]. *)
Lemma days_from_civil_compare a b :
  valid_date a -> valid_date b ->
  date_compare a b = (days_from_civil a ?= days_from_civil b).
Proof.
  intros Ha Hb.
  destruct (valid_date_view a Ha) as (y1 & mp1 & doy1 & V1).
  destruct (valid_date_view b Hb) as (y2 & mp2 & doy2 & V2).
  eapply march_view_compare; eauto.
Qed.

Lemma civil_from_days_valid z : valid_date (civil_from_days z).
Proof.
  destruct (civil_from_days_view z) as (y & mp & doy & V).
  destruct V as [Y M D R L H _ N].
  destruct (civil_from_days z) as [Yc m d]. cbn [year month day] in *.
  unfold valid_date, days_in_month, is_leap, march_days in *.
  cbn [year month day]. subst Yc m d.
  break_ifs. all: div_lia.
Qed.

Lemma days_from_civil_of_days z : days_from_civil (civil_from_days z) = z.
Proof.
  destruct (civil_from_days_view z) as (y1 & mp1 & doy1 & V1).
  destruct (valid_date_view _ (civil_from_days_valid z))
    as (y2 & mp2 & doy2 & V2).
  pose proof (march_view_compare _ _ _ _ _ _ _ _ _ _ V1 V2) as H.
  rewrite date_compare_refl in H. symmetry in H.
  now apply Z.compare_eq_iff in H.
Qed.

Lemma days_from_civil_add_days d n :
  days_from_civil (add_days d n) = days_from_civil d + n.
Proof. unfold add_days. apply days_from_civil_of_days. Qed.

(* ================================================================= *)
(** ** Text order of the stored dates *)

Lemma digit_compare a b :
  Ascii.compare (digit a) (digit b) = (a mod 10 ?= b mod 10).
Proof.
  unfold Ascii.compare, digit.
  assert (Ha : 0 <= a mod 10 < 10) by (apply Z.mod_pos_bound; lia).
  assert (Hb : 0 <= b mod 10 < 10) by (apply Z.mod_pos_bound; lia).
  rewrite !N_ascii_embedding by lia.
  rewrite <- N2Z.inj_compare, !N2Z.inj_add, !Z2N.id by lia.
  apply Z.add_compare_mono_l.
Qed.

Lemma digit_ext a b : a mod 10 = b mod 10 -> digit a = digit b.
Proof. unfold digit. now intros ->. Qed.

Lemma string_compare_cons c1 c2 s1 s2 :
  String.compare (String c1 s1) (String c2 s2)
  = then_compare (Ascii.compare c1 c2) (String.compare s1 s2).
Proof. simpl. now destruct (Ascii.compare c1 c2). Qed.

Lemma string_append_assoc (s1 s2 s3 : string) :
  ((s1 ++ s2) ++ s3 = s1 ++ (s2 ++ s3))%string.
Proof. induction s1 as [|c s1 IH]; simpl; [reflexivity|now rewrite IH]. Qed.

Lemma pad2_compare a b sa sb :
  0 <= a < 100 -> 0 <= b < 100 ->
  String.compare (pad2 a ++ sa) (pad2 b ++ sb)
  = then_compare (a ?= b) (String.compare sa sb).
Proof.
  intros Ha Hb. unfold pad2. cbn [append].
  rewrite !string_compare_cons, !digit_compare.
  destruct (Z.compare_spec a b) as [E|L|G].
  - subst b. now rewrite !Z.compare_refl.
  - destruct (Z.compare_spec ((a / 10) mod 10) ((b / 10) mod 10))
      as [E1|L1|G1]; cbn [then_compare]; [|reflexivity|exfalso; div_lia].
    destruct (Z.compare_spec (a mod 10) (b mod 10)) as [E2|L2|G2];
      cbn [then_compare]; [|reflexivity|]; exfalso; div_lia.
  - destruct (Z.compare_spec ((a / 10) mod 10) ((b / 10) mod 10))
      as [E1|L1|G1]; cbn [then_compare]; [|exfalso; div_lia|reflexivity].
    destruct (Z.compare_spec (a mod 10) (b mod 10)) as [E2|L2|G2];
      cbn [then_compare]; [| |reflexivity]; exfalso; div_lia.
Qed.

Lemma pad4_split n : pad4 n = (pad2 (n / 100) ++ pad2 (n mod 100))%string.
Proof.
  unfold pad4, pad2. cbn [append].
  repeat (f_equal; try (apply digit_ext; div_lia)).
Qed.

Lemma pad4_compare a b sa sb :
  0 <= a <= 9999 -> 0 <= b <= 9999 ->
  String.compare (pad4 a ++ sa) (pad4 b ++ sb)
  = then_compare (a ?= b) (String.compare sa sb).
Proof.
  intros Ha Hb. rewrite !pad4_split, !string_append_assoc.
  rewrite pad2_compare by div_lia. rewrite pad2_compare by div_lia.
  destruct (Z.compare_spec a b) as [E|L|G].
  - subst b. now rewrite !Z.compare_refl.
  - destruct (Z.compare_spec (a / 100) (b / 100)) as [E1|L1|G1];
      cbn [then_compare]; [|reflexivity|exfalso; div_lia].
    destruct (Z.compare_spec (a mod 100) (b mod 100)) as [E2|L2|G2];
      cbn [then_compare]; [|reflexivity|]; exfalso; div_lia.
  - destruct (Z.compare_spec (a / 100) (b / 100)) as [E1|L1|G1];
      cbn [then_compare]; [|exfalso; div_lia|reflexivity].
    destruct (Z.compare_spec (a mod 100) (b mod 100)) as [E2|L2|G2];
      cbn [then_compare]; [| |reflexivity]; exfalso; div_lia.
Qed.

Lemma days_in_month_le_31 y m : 28 <= days_in_month y m <= 31.
Proof. unfold days_in_month. break_ifs; lia. Qed.

(** The texts of two dates, each followed by any text, compare as the dates
    do and then as the texts that follow. *)
Lemma strftime_ymd_compare a b sa sb :
  valid_date a -> four_digit_year a -> valid_date b -> four_digit_year b ->
  String.compare (strftime_ymd a ++ sa) (strftime_ymd b ++ sb)
  = then_compare (date_compare a b) (String.compare sa sb).
Proof.
  intros [Ma Da] Ya [Mb Db] Yb. unfold four_digit_year in *.
  pose proof (days_in_month_le_31 (year a) (month a)).
  pose proof (days_in_month_le_31 (year b) (month b)).
  unfold strftime_ymd. rewrite !string_append_assoc.
  rewrite pad4_compare by lia.
  cbn [append]. rewrite string_compare_cons, ascii_compare_refl.
  cbn [then_compare]. rewrite pad2_compare by lia.
  cbn [append]. rewrite string_compare_cons, ascii_compare_refl.
  cbn [then_compare]. rewrite pad2_compare by lia.
  unfold date_compare.
  destruct (year a ?= year b), (month a ?= month b), (day a ?= day b);
    reflexivity.
Qed.

Lemma string_append_empty s : (s ++ "")%string = s.
Proof. induction s as [|c s IH]; simpl; [reflexivity|now rewrite IH]. Qed.

Lemma strftime_ymd_hms_suffix t :
  exists suffix,
    suffix <> EmptyString
    /\ strftime_ymd_hms t = (strftime_ymd (dt_date t) ++ suffix)%string.
Proof.
  unfold strftime_ymd_hms. eexists. split; [|reflexivity]. discriminate.
Qed.

(** A listing whose Expiry_Date was written as YYYY-MM-DD passes the WHERE
    clause exactly when it expires after today and at most [days] days
    later. *)
Lemma date_text_in_window today days e fl :
  valid_date today -> four_digit_year today ->
  four_digit_year (add_days today days) ->
  valid_date e -> four_digit_year e ->
  fl_Expiry_Date fl = strftime_ymd e ->
  (nearing_expiry_where today days fl = true
   <-> days_from_civil today < days_from_civil e
                             <= days_from_civil today + days).
Proof.
  intros Vt Yt Yu Ve Ye E.
  pose proof (civil_from_days_valid (days_from_civil today + days)) as Vu.
  fold (add_days today days) in Vu.
  unfold nearing_expiry_where, sqlite_DATE_plus_days. rewrite E.
  unfold String.ltb, String.leb.
  rewrite <- (string_append_empty (strftime_ymd today)).
  rewrite <- (string_append_empty (strftime_ymd e)).
  rewrite <- (string_append_empty (strftime_ymd (add_days today days))).
  rewrite !strftime_ymd_compare by assumption.
  rewrite !days_from_civil_compare by assumption.
  rewrite days_from_civil_add_days. cbn [String.compare].
  rewrite andb_true_iff.
  destruct (Z.compare_spec (days_from_civil today) (days_from_civil e));
    destruct (Z.compare_spec (days_from_civil e)
                             (days_from_civil today + days));
    cbn [then_compare]; split; try lia; intros [? ?]; try discriminate; lia.
Qed.

(** A listing whose Expiry_Date was written as YYYY-MM-DD HH:MM:SS passes the
    WHERE clause exactly when it expires today or later and less than [days]
    days later: the window starts and ends one day early. *)
Lemma datetime_text_in_window today days t fl :
  valid_date today -> four_digit_year today ->
  four_digit_year (add_days today days) ->
  valid_date (dt_date t) -> four_digit_year (dt_date t) ->
  fl_Expiry_Date fl = strftime_ymd_hms t ->
  (nearing_expiry_where today days fl = true
   <-> days_from_civil today <= days_from_civil (dt_date t)
                              < days_from_civil today + days).
Proof.
  intros Vt Yt Yu Ve Ye E.
  pose proof (civil_from_days_valid (days_from_civil today + days)) as Vu.
  fold (add_days today days) in Vu.
  destruct (strftime_ymd_hms_suffix t) as (suffix & Hs & Es).
  unfold nearing_expiry_where, sqlite_DATE_plus_days. rewrite E, Es.
  unfold String.ltb, String.leb.
  rewrite <- (string_append_empty (strftime_ymd today)).
  rewrite <- (string_append_empty (strftime_ymd (add_days today days))).
  rewrite !strftime_ymd_compare by assumption.
  rewrite !days_from_civil_compare by assumption.
  rewrite days_from_civil_add_days.
  assert (Hgt : String.compare suffix "" = Gt)
    by (destruct suffix; [contradiction|reflexivity]).
  assert (Hlt : String.compare "" suffix = Lt)
    by (destruct suffix; [contradiction|reflexivity]).
  rewrite Hgt, Hlt. rewrite andb_true_iff.
  destruct (Z.compare_spec (days_from_civil today)
                           (days_from_civil (dt_date t)));
    destruct (Z.compare_spec (days_from_civil (dt_date t))
                             (days_from_civil today + days));
    cbn [then_compare]; split; try lia; intros [? ?]; try discriminate; lia.
Qed.

(** X19. The listings written by the add-listing statement are reported for
    the window the specification states: after today, up to today + N. *)
Lemma added_listing_window conn today days i n q e p pt l ft mt :
  valid_date today -> four_digit_year today ->
  four_digit_year (add_days today days) ->
  valid_date e -> four_digit_year e ->
  (In (mkExpiryRow n q (strftime_ymd e) l (adapt p))
      (get_food_nearing_expiry_sql today days
         (snd (run (add_food_listing_sql i n q e p pt l ft mt) conn)))
   <-> days_from_civil today < days_from_civil e
                             <= days_from_civil today + days).
Proof.
  intros Vt Yt Yu Ve Ye. rewrite nearing_expiry_rows. split.
  - intros (fl & _ & Hlt & Hle & E).
    apply (date_text_in_window today days e fl); try assumption.
    + change (fl_Expiry_Date fl) with (e_Expiry_Date (select_expiry_row fl)).
      now rewrite <- E.
    + unfold nearing_expiry_where. unfold text_lt in Hlt. unfold text_le in Hle.
      now rewrite Hlt, Hle.
  - intros Hw.
    exists (mkFoodListing i n q (strftime_ymd e) (adapt p) pt l ft mt).
    assert (Hwhere : nearing_expiry_where today days
                       (mkFoodListing i n q (strftime_ymd e) (adapt p) pt l ft
                                      mt)
                     = true)
      by (apply (date_text_in_window today days e); auto).
    unfold nearing_expiry_where in Hwhere. apply andb_true_iff in Hwhere.
    split; [|split; [|split]]; try tauto; try reflexivity.
    simpl. apply in_or_app. right. now left.
Qed.

(** C2. For the listings the loader stored, the window of the query starts
    and ends one day early: a loaded listing is returned exactly when it
    expires today or later and less than N days after today.  So a loaded
    listing expiring today is returned and one expiring on today + N is not,
    where the specification excludes the first and includes the second. *)
Theorem loaded_listings_window_is_a_day_early :
  forall today days providers_df receivers_df food_listings_df claims_df row,
    valid_date today -> four_digit_year today ->
    four_digit_year (add_days today days) ->
    In row food_listings_df ->
    valid_date (dt_date (df_Expiry_Date row)) ->
    four_digit_year (dt_date (df_Expiry_Date row)) ->
    (In (select_expiry_row (to_sql_food_listing row))
        (get_food_nearing_expiry_sql today days
           (init_db providers_df receivers_df food_listings_df claims_df))
     <-> days_from_civil today <= days_from_civil (dt_date (df_Expiry_Date row))
                                < days_from_civil today + days).
Proof.
  intros today days ps rs fls cs row Vt Yt Yu Hin Ve Ye.
  rewrite nearing_expiry_rows. split.
  - intros (fl & _ & Hlt & Hle & E).
    apply (datetime_text_in_window today days (df_Expiry_Date row) fl);
      try assumption.
    + change (fl_Expiry_Date fl) with (e_Expiry_Date (select_expiry_row fl)).
      now rewrite <- E.
    + unfold nearing_expiry_where. unfold text_lt in Hlt. unfold text_le in Hle.
      now rewrite Hlt, Hle.
  - intros Hw. exists (to_sql_food_listing row).
    assert (Hwhere : nearing_expiry_where today days (to_sql_food_listing row)
                     = true)
      by (apply (datetime_text_in_window today days (df_Expiry_Date row));
          auto).
    unfold nearing_expiry_where in Hwhere. apply andb_true_iff in Hwhere.
    split; [|split; [|split]]; try tauto; try reflexivity.
    simpl. now apply in_map.
Qed.

Lemma loaded_listings_window_is_a_day_early_witness :
  let df (i : Z) (d : date) :=
    mkFoodListing_df i "Rice" 5 (mkDatetime d 0 0 0) 1 "Restaurant" "CityA"
                     "Vegan" "Lunch" in
  let loaded :=
    init_db [P1] [R1] [df 1 day0; df 2 (mkDate 2025 3 17)] [] in
  In (select_expiry_row (to_sql_food_listing (df 1 day0)))
     (get_food_nearing_expiry_sql day0 7 loaded)
  /\ ~ In (select_expiry_row (to_sql_food_listing (df 2 (mkDate 2025 3 17))))
          (get_food_nearing_expiry_sql day0 7 loaded).
Proof.
  intros df loaded.
  assert (V0 : valid_date day0) by date_facts.
  assert (Y0 : four_digit_year day0) by date_facts.
  assert (Y7 : four_digit_year (add_days day0 7)) by date_facts.
  assert (V17 : valid_date (mkDate 2025 3 17)) by date_facts.
  assert (Y17 : four_digit_year (mkDate 2025 3 17)) by date_facts.
  split.
  - refine (proj2 (loaded_listings_window_is_a_day_early
                     day0 7 [P1] [R1] [df 1 day0; df 2 (mkDate 2025 3 17)] []
                     (df 1 day0) V0 Y0 Y7 (or_introl eq_refl) V0 Y0) _).
    split; [apply Z.leb_le|apply Z.ltb_lt]; vm_compute; reflexivity.
  - intros H.
    apply (proj1 (loaded_listings_window_is_a_day_early
                    day0 7 [P1] [R1] [df 1 day0; df 2 (mkDate 2025 3 17)] []
                    (df 2 (mkDate 2025 3 17)) V0 Y0 Y7
                    (or_intror (or_introl eq_refl)) V17 Y17)) in H.
    destruct H as [_ H]. apply Z.ltb_lt in H. vm_compute in H. discriminate H.
Defined.

(* ================================================================= *)
(** ** The order of the filtered listing table *)

(** The text the update and add statements write for a day sorts before the
    text the loader wrote for the same day. *)
Lemma rewritten_date_sorts_first t :
  text_lt (strftime_ymd (dt_date t)) (strftime_ymd_hms t).
Proof.
  destruct (strftime_ymd_hms_suffix t) as [suffix [Hne ->]].
  now apply string_ltb_append.
Qed.

(** C8. The filtered listing table holds the listings that pass every select
    box not left on 'All' and whose Provider_ID is the INTEGER id of a
    provider, each with that provider's Name and Contact.  Its rows come in
    the order of the stored Expiry_Date text, then of Food_Name.  The stored
    text is YYYY-MM-DD HH:MM:SS for a loaded listing and YYYY-MM-DD once the
    update form saved it, and the second sorts before the first: of two
    listings that expire on the same day, the one saved by the form comes
    first whatever the names, Zebra before Apple, where the specification
    orders by Expiry_Date and then by Food_Name. *)
Theorem filter_query_orders_rewritten_dates_first :
  (forall sc spt sft smt conn row,
      In row (filter_query sc spt sft smt conn)
      <-> exists fl p,
            In fl (food_listings conn) /\ In p (providers conn)
            /\ fl_Provider_ID fl = Integer (p_Provider_ID p)
            /\ selection_matches sc (fl_Location fl)
            /\ selection_matches spt (fl_Provider_Type fl)
            /\ selection_matches sft (fl_Food_Type fl)
            /\ selection_matches smt (fl_Meal_Type fl)
            /\ row = mkListingRow (fl_Food_ID fl) (fl_Food_Name fl)
                       (fl_Quantity fl) (fl_Expiry_Date fl)
                       (fl_Provider_Type fl) (fl_Location fl) (fl_Food_Type fl)
                       (fl_Meal_Type fl) (p_Name p) (p_Contact p))
  /\ (forall sc spt sft smt conn,
         StronglySorted expiry_then_name (filter_query sc spt sft smt conn))
  /\ (forall a b t,
         l_Expiry_Date a = strftime_ymd (dt_date t) ->
         l_Expiry_Date b = strftime_ymd_hms t ->
         listing_row_order a b = true /\ listing_row_order b a = false)
  /\ (let loaded := init_db [P1] [R1] [apple_df; zebra_df] [] in
      let updated :=
        snd (run (update_food_listing_sql 2 "Zebra" 4 (mkDate 2025 3 17)
                                          "Vegan" "Lunch") loaded) in
      filter_query "All" "All" "All" "All" loaded
      = [ mkListingRow 1 "Apple" 5 "2025-03-17 00:00:00" "Restaurant" "CityA"
                       "Vegan" "Lunch" "P1" "p1@x";
          mkListingRow 2 "Zebra" 4 "2025-03-17 00:00:00" "Restaurant" "CityA"
                       "Vegan" "Lunch" "P1" "p1@x" ]
      /\ filter_query "All" "All" "All" "All" updated
         = [ mkListingRow 2 "Zebra" 4 "2025-03-17" "Restaurant" "CityA"
                          "Vegan" "Lunch" "P1" "p1@x";
             mkListingRow 1 "Apple" 5 "2025-03-17 00:00:00" "Restaurant"
                          "CityA" "Vegan" "Lunch" "P1" "p1@x" ]).
Proof.
  split; [intros; apply filter_query_rows|].
  split; [intros; apply filter_query_sorted|].
  split; [|split; reflexivity].
  intros a b t Ha Hb. pose proof (rewritten_date_sorts_first t) as Hlt.
  unfold text_lt in Hlt. unfold listing_row_order, text_asc2. cbn [fst snd].
  rewrite Ha, Hb, Hlt. split; [reflexivity|].
  rewrite (string_ltb_asym _ _ Hlt).
  destruct (String.eqb_spec (strftime_ymd_hms t) (strftime_ymd (dt_date t)))
    as [E|E]; [|reflexivity].
  rewrite E, string_ltb_irrefl in Hlt. discriminate.
Qed.

(* ================================================================= *)
(** ** The filtered listing table under referential integrity *)

Lemma map_fst_filter {A B : Type} (w : A -> bool) (l : list (A * B)) :
  map fst (filter (fun x => w (fst x)) l) = filter w (map fst l).
Proof.
  induction l as [|x l IH]; simpl; [reflexivity|].
  destruct (w (fst x)); simpl; now rewrite IH.
Qed.

(** X18. When Provider_ID is a key of providers and every listing refers to
    a stored provider, each listing that passes the filters appears exactly
    once in the table. *)
Lemma filter_query_lists_each_matching_listing_once sc spt sft smt conn :
  NoDup (map p_Provider_ID (providers conn)) ->
  (forall fl, In fl (food_listings conn) ->
              In (fl_Provider_ID fl)
                 (map (fun p => Integer (p_Provider_ID p)) (providers conn))) ->
  Permutation (map l_Food_ID (filter_query sc spt sft smt conn))
              (map fl_Food_ID
                 (filter (listing_matchesb sc spt sft smt)
                         (food_listings conn))).
Proof.
  intros Hnd Hall.
  eapply perm_trans; [apply Permutation_map, filter_query_perm|].
  rewrite map_map.
  rewrite (map_ext (fun x => l_Food_ID (select_listing_row x))
                   (fun x => fl_Food_ID (fst x)))
    by (intros [fl p]; reflexivity).
  rewrite <- (map_map fst fl_Food_ID).
  rewrite (map_fst_filter (listing_matchesb sc spt sft smt)).
  rewrite (inner_join_total_id fl_Provider_ID p_Provider_ID) by assumption.
  apply Permutation_refl.
Qed.

(* ================================================================= *)
(** ** Grouped reports: general facts *)

Lemma Zsum_perm l1 l2 : Permutation l1 l2 -> Zsum l1 = Zsum l2.
Proof.
  unfold Zsum.
  induction 1 as [|x l1 l2 _ IH|x y l|l1 l2 l3 _ IH1 _ IH2]; simpl; lia.
Qed.

Lemma sum_rows_app {A : Type} (col : A -> Z) l1 l2 :
  sum_rows col (l1 ++ l2) = sum_rows col l1 + sum_rows col l2.
Proof.
  unfold sum_rows. induction l1 as [|x l1 IH]; simpl; lia.
Qed.

Lemma sum_rows_split {A : Type} (col : A -> Z) (w : A -> bool) l :
  sum_rows col l
  = sum_rows col (filter w l) + sum_rows col (filter (fun x => negb (w x)) l).
Proof.
  unfold sum_rows. induction l as [|x l IH]; simpl; [reflexivity|].
  destruct (w x); simpl; lia.
Qed.

Lemma count_rows_sum {A : Type} (l : list A) :
  count_rows l = sum_rows (fun _ => 1) l.
Proof.
  unfold count_rows, sum_rows. induction l as [|x l IH]; [reflexivity|].
  cbn [List.length map fold_right]. rewrite Nat2Z.inj_succ. lia.
Qed.

Lemma sums_by_key_total {A : Type} (key : A -> string) (col : A -> Z) keys :
  forall l,
    NoDup keys ->
    (forall x, In x l -> In (key x) keys) ->
    Zsum (map (fun k => sum_rows col (filter (fun x => String.eqb (key x) k) l))
              keys)
    = sum_rows col l.
Proof.
  induction keys as [|k keys IH]; intros l Hnd Hcov; simpl.
  - destruct l as [|x l]; [reflexivity|].
    destruct (Hcov x (or_introl eq_refl)).
  - inversion Hnd as [|? ? Hk Hnd']; subst.
    rewrite (sum_rows_split col (fun x => String.eqb (key x) k) l). f_equal.
    rewrite <- (IH (filter (fun x => negb (String.eqb (key x) k)) l) Hnd').
    + f_equal. apply map_ext_in. intros k' Hk'.
      rewrite filter_filter_implied; [reflexivity|].
      intros x Hx. apply String.eqb_eq in Hx. apply negb_true_iff.
      apply String.eqb_neq. intros E. apply Hk. congruence.
    + intros x Hx. apply filter_In in Hx as [Hx Hne].
      destruct (Hcov x Hx) as [E|Hin]; [|exact Hin].
      rewrite E, String.eqb_refl in Hne. discriminate.
Qed.

Lemma distinct_keys_NoDup (l : list string) :
  NoDup (order_by String.leb (nodup String.string_dec l)).
Proof.
  eapply Permutation_NoDup; [apply order_by_perm|apply NoDup_nodup].
Qed.

Lemma distinct_keys_In (l : list string) k :
  In k (order_by String.leb (nodup String.string_dec l)) <-> In k l.
Proof. now rewrite order_by_In, nodup_In. Qed.

Lemma group_by_keys {A : Type} (key : A -> string) rows :
  map fst (group_by key rows)
  = order_by String.leb (nodup String.string_dec (map key rows)).
Proof.
  unfold group_by. rewrite map_map. simpl. apply map_id.
Qed.

Lemma aggregate_perm {A : Type} (key : A -> string) agg rows :
  Permutation (aggregate key agg rows)
              (map (fun g => (fst g, agg (snd g))) (group_by key rows)).
Proof. apply Permutation_sym, order_by_perm. Qed.

Lemma aggregate_In {A : Type} (key : A -> string) agg rows k v :
  In (k, v) (aggregate key agg rows)
  <-> In k (map key rows)
      /\ v = agg (filter (fun r => String.eqb (key r) k) rows).
Proof.
  unfold aggregate, group_by. rewrite order_by_In, map_map, in_map_iff. simpl.
  split.
  - intros [k' [E Hk']]. inversion E; subst.
    apply (proj1 (distinct_keys_In _ _)) in Hk'. auto.
  - intros [Hk ->]. exists k. split; [reflexivity|].
    now apply (proj2 (distinct_keys_In _ _)).
Qed.

Lemma aggregate_keys_NoDup {A : Type} (key : A -> string) agg rows :
  NoDup (map fst (aggregate key agg rows)).
Proof.
  eapply Permutation_NoDup.
  - apply Permutation_map, Permutation_sym, aggregate_perm.
  - rewrite map_map. simpl. rewrite <- (map_map fst (fun k => k)), map_id.
    rewrite group_by_keys. apply distinct_keys_NoDup.
Qed.

Lemma aggregate_sorted {A : Type} (key : A -> string) agg rows :
  StronglySorted (fun a b : agg_row => snd b <= snd a)
                 (aggregate key agg rows).
Proof.
  unfold aggregate.
  eapply StronglySorted_impl;
    [|apply (order_by_strongly_sorted agg_desc)].
  - intros a b H. now apply Z.leb_le.
  - intros a b. unfold agg_desc. rewrite !Z.leb_le. lia.
  - intros a b c. unfold agg_desc. rewrite !Z.leb_le. lia.
Qed.

Lemma aggregate_sum_total {A : Type} (key : A -> string) (col : A -> Z) rows :
  report_total (aggregate key (sum_rows col) rows) = sum_rows col rows.
Proof.
  unfold report_total.
  rewrite (Zsum_perm _ _ (Permutation_map snd (aggregate_perm _ _ _))).
  unfold group_by. rewrite !map_map. simpl.
  apply sums_by_key_total.
  - apply distinct_keys_NoDup.
  - intros x Hx. apply (proj2 (distinct_keys_In _ _)). now apply in_map.
Qed.

Lemma aggregate_count_total {A : Type} (key : A -> string) (rows : list A) :
  report_total (aggregate key count_rows rows) = count_rows rows.
Proof.
  rewrite count_rows_sum, <- (aggregate_sum_total key (fun _ => 1) rows).
  unfold report_total.
  rewrite (Zsum_perm _ _ (Permutation_map snd
                            (aggregate_perm key count_rows rows))).
  rewrite (Zsum_perm _ _ (Permutation_map snd
                            (aggregate_perm key (sum_rows (fun _ => 1)) rows))).
  rewrite !map_map. f_equal. apply map_ext. intros g. simpl.
  apply count_rows_sum.
Qed.

Lemma aggregate_nil_iff {A : Type} (key : A -> string) agg rows :
  aggregate key agg rows = [] <-> rows = [].
Proof.
  split.
  - intros H. destruct rows as [|x rows]; [reflexivity|].
    assert (Hin : In (key x, agg (filter (fun r => String.eqb (key r) (key x))
                                         (x :: rows)))
                     (aggregate key agg (x :: rows)))
      by (apply aggregate_In; split; [now left|reflexivity]).
    rewrite H in Hin. destruct Hin.
  - intros ->. reflexivity.
Qed.

Lemma StronglySorted_app_le {A : Type} (R : A -> A -> Prop) l1 l2 a b :
  StronglySorted R (l1 ++ l2) -> In a l1 -> In b l2 -> R a b.
Proof.
  induction l1 as [|x l1 IH]; simpl; intros Hs Ha Hb; [destruct Ha|].
  inversion Hs as [|? ? Hs' Hall]; subst. destruct Ha as [->|Ha].
  - rewrite Forall_forall in Hall. apply Hall. apply in_or_app. now right.
  - now apply IH.
Qed.

Lemma firstn_cases {A : Type} n (l : list A) x :
  In x l -> In x (firstn n l) \/ In x (skipn n l).
Proof.
  intros H. rewrite <- (firstn_skipn n l) in H.
  apply in_app_or in H. exact H.
Qed.

Lemma firstn_incl {A : Type} n (l : list A) x : In x (firstn n l) -> In x l.
Proof.
  intros H. rewrite <- (firstn_skipn n l). apply in_or_app. now left.
Qed.

Lemma firstn_keys_NoDup {A B : Type} (f : A -> B) n (l : list A) :
  NoDup (map f l) -> NoDup (map f (firstn n l)).
Proof.
  intros H. rewrite <- (firstn_skipn n l), map_app in H.
  eapply NoDup_app_remove_r. exact H.
Qed.

Lemma count_rows_nonneg {A : Type} (l : list A) : 0 <= count_rows l.
Proof. unfold count_rows. lia. Qed.

Lemma listings_with_report col conn k v :
  In (k, v) (aggregate col count_rows (food_listings conn)) ->
  In k (map col (food_listings conn)) /\ v = listings_with col k conn.
Proof. intros H. now apply aggregate_In in H. Qed.

Lemma listings_with_bound col conn n top k v :
  In (k, v) (firstn n (aggregate col count_rows (food_listings conn))) ->
  In top (map col (food_listings conn)) ->
  ~ In top (map fst (firstn n (aggregate col count_rows (food_listings conn)))) ->
  listings_with col top conn <= v.
Proof.
  intros Hin Htop Hout.
  assert (Hrow : In (top, listings_with col top conn)
                    (aggregate col count_rows (food_listings conn)))
    by (apply aggregate_In; split; [exact Htop|reflexivity]).
  destruct (firstn_cases n _ _ Hrow) as [H|H].
  - exfalso. apply Hout. apply in_map_iff. now exists (top, listings_with col top conn).
  - apply (StronglySorted_app_le
             (fun a b : agg_row => snd b <= snd a)
             (firstn n (aggregate col count_rows (food_listings conn)))
             (skipn n (aggregate col count_rows (food_listings conn)))
             (k, v) (top, listings_with col top conn)); auto.
    rewrite firstn_skipn. apply aggregate_sorted.
Qed.

(* ================================================================= *)
(** ** Reports over the listings *)


(** X2. The city-with-most-listings query returns at most one row, and none
    exactly when no listing is stored.  Its row names a location of the
    listings with the number of listings there, and no location has more. *)
Theorem city_with_most_listings_is_a_maximum :
  forall conn,
    let top := get_city_with_most_listings_sql conn in
    (List.length top <= 1)%nat
    /\ (top = [] <-> food_listings conn = [])
    /\ forall city n,
        In (city, n) top ->
        In city (map fl_Location (food_listings conn))
        /\ n = listings_with fl_Location city conn
        /\ forall other, listings_with fl_Location other conn <= n.
Proof.
  intros conn top. subst top. unfold get_city_with_most_listings_sql.
  split; [apply firstn_le_length|]. split.
  - rewrite <- (aggregate_nil_iff fl_Location count_rows (food_listings conn)).
    destruct (aggregate fl_Location count_rows (food_listings conn));
      simpl; split; congruence.
  - intros city n Hin.
    destruct (listings_with_report _ _ _ _ (firstn_incl _ _ _ Hin)) as [Hc Hn].
    split; [exact Hc|]. split; [exact Hn|]. intros other.
    destruct (in_dec String.string_dec other
                     (map fl_Location (food_listings conn))) as [Ho|Ho].
    + destruct (in_dec String.string_dec other
                  (map fst (firstn 1 (aggregate fl_Location count_rows
                                                (food_listings conn)))))
        as [Hi|Hi].
      * destruct (aggregate fl_Location count_rows (food_listings conn))
          as [|r rs]; [destruct Hin|].
        simpl in Hin, Hi. destruct Hin as [->|[]]. destruct Hi as [<-|[]].
        simpl. lia.
      * eapply listings_with_bound; eauto.
    + unfold listings_with. rewrite filter_none.
      * rewrite Hn. apply count_rows_nonneg.
      * intros fl Hfl. apply String.eqb_neq. intros E. apply Ho.
        rewrite <- E. now apply in_map.
Qed.

(** X3. The most-common-food-names query returns at most five rows, one per
    food name, each with the number of listings of that name.  A food name is
    left out only when five rows are returned, and it then has no more
    listings than any name returned. *)
Theorem most_common_food_types_are_the_top_five :
  forall conn,
    let top := get_most_common_food_types_sql conn in
    (List.length top <= 5)%nat
    /\ NoDup (map fst top)
    /\ (forall name n,
           In (name, n) top ->
           In name (map fl_Food_Name (food_listings conn))
           /\ n = listings_with fl_Food_Name name conn)
    /\ (forall name,
           In name (map fl_Food_Name (food_listings conn)) ->
           ~ In name (map fst top) ->
           List.length top = 5%nat
           /\ forall row, In row top ->
                          listings_with fl_Food_Name name conn <= snd row).
Proof.
  intros conn top. subst top. unfold get_most_common_food_types_sql.
  split; [apply firstn_le_length|]. split.
  - apply firstn_keys_NoDup, aggregate_keys_NoDup.
  - split.
    + intros name n Hin.
      apply listings_with_report. eapply firstn_incl. exact Hin.
    + intros name Hname Hout. split.
      * destruct (Nat.le_gt_cases
                    (List.length (aggregate fl_Food_Name count_rows
                                            (food_listings conn))) 5)
          as [Hle|Hgt].
        -- exfalso. apply Hout. rewrite firstn_all2 by exact Hle.
           apply in_map_iff.
           exists (name, listings_with fl_Food_Name name conn).
           split; [reflexivity|].
           apply aggregate_In. split; [exact Hname|reflexivity].
        -- apply firstn_length_le. lia.
      * intros [k v] Hrow. simpl. eapply listings_with_bound; eauto.
Qed.

(* ================================================================= *)
(** ** Reports over joins *)


Lemma count_rows_map {A B : Type} (f : A -> B) (l : list A) :
  count_rows (map f l) = count_rows l.
Proof. unfold count_rows. now rewrite length_map. Qed.



(** X5. When Food_ID is a key of food_listings, the counts of the
    claims-per-food-item report add up to the number of claims whose Food_ID
    is stored: a claim on a listing that is gone is not counted, the others
    once each. *)
Theorem claims_per_food_item_counts_claims_on_stored_listings :
  forall conn,
    NoDup (map fl_Food_ID (food_listings conn)) ->
    report_total (get_claims_per_food_item_sql conn)
    = count_rows
        (filter (fun c => existsb (fun fl => c_Food_ID c =? fl_Food_ID fl)
                                  (food_listings conn))
                (claims conn)).
Proof.
  intros conn Hnd. unfold get_claims_per_food_item_sql, claims_listings.
  rewrite aggregate_count_total.
  rewrite <- (count_rows_map fst).
  now rewrite (inner_join_unique_key c_Food_ID fl_Food_ID).
Qed.

Lemma claims_per_food_item_counts_claims_on_stored_listings_witness :
  report_total
    (get_claims_per_food_item_sql
       (mkStore [P1] [R1] [rice 1 "2025-03-20"] [claim_of 1 1; claim_of 2 9]
                INTEGER INTEGER))
  = 1.
Proof.
  rewrite claims_per_food_item_counts_claims_on_stored_listings.
  - reflexivity.
  - simpl. repeat constructor. simpl. tauto.
Defined.

(** X6. When Receiver_ID is a key of receivers and every claim refers to a
    stored receiver, the counts of the claims-by-receiver-type report add up
    to the number of claims. *)
Theorem claims_by_receiver_type_counts_every_claim :
  forall conn,
    receivers_intact conn ->
    report_total (get_claims_by_receiver_type_sql conn)
    = count_rows (claims conn).
Proof.
  intros conn [Hnd Hall]. unfold get_claims_by_receiver_type_sql.
  rewrite aggregate_count_total.
  rewrite <- (count_rows_map fst).
  now rewrite (inner_join_total_id c_Receiver_ID r_Receiver_ID).
Qed.

Lemma claims_by_receiver_type_counts_every_claim_witness :
  report_total (get_claims_by_receiver_type_sql two_listing_store) = 2.
Proof.
  rewrite (claims_by_receiver_type_counts_every_claim two_listing_store).
  - reflexivity.
  - split.
    + simpl. repeat constructor; simpl; intuition discriminate.
    + intros c [<-|[<-|[]]]; simpl; auto.
Defined.

(* ================================================================= *)
(** ** Submitting claims *)

Lemma claim_form_submit_store conn new_id f r s now :
  snd (run (claim_form_submit new_id f r s now) conn)
  = if sql_count (fun fl => fl_Food_ID fl =? f) (food_listings conn) =? 0
    then conn
    else set_claims
           (claims conn
            ++ [mkClaim new_id f (adapt r) s (strftime_ymd_hms now)])
           conn.
Proof.
  unfold run, claim_form_submit, bind, run_query.
  destruct (sql_count (fun fl => fl_Food_ID fl =? f) (food_listings conn) =? 0);
    reflexivity.
Qed.

Lemma inner_join_app_l {A B : Type} (on : A -> B -> bool) l1 l2 lb :
  inner_join on (l1 ++ l2) lb = inner_join on l1 lb ++ inner_join on l2 lb.
Proof. unfold inner_join. apply flat_map_app. Qed.

Lemma inner_join_filter_none {A B : Type} (on : A -> B -> bool)
    (w : A -> bool) la lb :
  (forall a, In a la -> w a = false) ->
  filter (fun x => w (fst x)) (inner_join on la lb) = [].
Proof.
  intros H. apply filter_none. intros [a b] Hin.
  apply inner_join_In in Hin as [Ha _]. simpl. now apply H.
Qed.

Lemma inner_join_none {A B : Type} (on : A -> B -> bool) la lb :
  (forall a b, In a la -> In b lb -> on a b = false) ->
  inner_join on la lb = [].
Proof.
  intros H. unfold inner_join. induction la as [|a la IH]; [reflexivity|].
  simpl. rewrite filter_none by (intros b Hb; apply H; [now left|exact Hb]).
  simpl. apply IH. intros a' b Ha' Hb. apply H; [now right|exact Hb].
Qed.

Lemma claims_listings_snoc conn c :
  claims_listings (set_claims (claims conn ++ [c]) conn)
  = claims_listings conn
    ++ inner_join (fun c fl => c_Food_ID c =? fl_Food_ID fl) [c]
                  (food_listings conn).
Proof.
  unfold claims_listings, set_claims. cbn [claims food_listings].
  apply inner_join_app_l.
Qed.

Lemma new_claim_rows_not_completed conn c :
  completed c = false ->
  forall x,
    In x (inner_join (fun c fl => c_Food_ID c =? fl_Food_ID fl) [c]
                     (food_listings conn)) ->
    completed (fst x) = false.
Proof.
  intros Hc [c' fl] Hin. apply inner_join_In in Hin as [[<-|[]] _]. exact Hc.
Qed.

(** X7. A claim submitted with a status other than 'Completed' changes none
    of the reports that count completed claims only: top receivers by claimed
    quantity, providers with successful claims and most claimed meal type
    return what they returned before. *)
Theorem non_completed_claim_leaves_completed_reports_unchanged :
  forall conn new_id claim_food_id claim_receiver_id claim_status now,
    claim_status <> "Completed"%string ->
    let after :=
      snd (run (claim_form_submit new_id claim_food_id claim_receiver_id
                                  claim_status now) conn) in
    get_top_receivers_by_claimed_food_sql after
    = get_top_receivers_by_claimed_food_sql conn
    /\ get_providers_with_successful_claims_sql after
       = get_providers_with_successful_claims_sql conn
    /\ get_most_claimed_meal_type_sql after
       = get_most_claimed_meal_type_sql conn.
Proof.
  intros conn new_id f r s now Hs after. subst after.
  rewrite claim_form_submit_store.
  destruct (sql_count (fun fl => fl_Food_ID fl =? f) (food_listings conn) =? 0);
    [repeat split|].
  set (c := mkClaim new_id f (adapt r) s (strftime_ymd_hms now)).
  assert (Hc : completed c = false)
    by (unfold completed; simpl; now apply String.eqb_neq).
  pose proof (new_claim_rows_not_completed conn c Hc) as Hrows.
  assert (Hnew : filter (fun x : Claim * FoodListing => completed (fst x))
                   (inner_join (fun c fl => c_Food_ID c =? fl_Food_ID fl) [c]
                               (food_listings conn)) = [])
    by (apply filter_none; exact Hrows).
  unfold get_top_receivers_by_claimed_food_sql,
    get_providers_with_successful_claims_sql, get_most_claimed_meal_type_sql,
    claims_listings_receivers, claims_listings_providers.
  rewrite claims_listings_snoc.
  unfold set_claims. cbn [receivers providers].
  rewrite !inner_join_app_l, !filter_app, Hnew.
  rewrite (inner_join_filter_none
             (fun cfl r => id_eqb (c_Receiver_ID (fst cfl)) (r_Receiver_ID r))
             (fun cfl => completed (fst cfl))
             (inner_join (fun c fl => c_Food_ID c =? fl_Food_ID fl) [c]
                         (food_listings conn))
             (receivers conn) Hrows).
  rewrite (inner_join_filter_none
             (fun cfl p => id_eqb (fl_Provider_ID (snd cfl)) (p_Provider_ID p))
             (fun cfl => completed (fst cfl))
             (inner_join (fun c fl => c_Food_ID c =? fl_Food_ID fl) [c]
                         (food_listings conn))
             (providers conn) Hrows).
  rewrite !app_nil_r. repeat split.
Qed.

Lemma non_completed_claim_leaves_completed_reports_unchanged_witness :
  get_most_claimed_meal_type_sql
    (snd (run (claim_form_submit 3 1 (numpy_int64 1) "Pending" noon0)
              two_listing_store))
  = [("Breakfast"%string, 1)].
Proof.
  destruct (non_completed_claim_leaves_completed_reports_unchanged
              two_listing_store 3 1 (numpy_int64 1) "Pending" noon0)
    as (_ & _ & ->).
  - discriminate.
  - reflexivity.
Defined.

Lemma history_sorted conn :
  StronglySorted (fun a b => text_le (h_Timestamp b) (h_Timestamp a))
                 (claims_display_query conn).
Proof.
  unfold claims_display_query.
  apply (order_by_strongly_sorted
           (fun a b => String.leb (h_Timestamp b) (h_Timestamp a))).
  - intros a b. apply String.leb_total.
  - intros a b c H1 H2. eapply string_leb_trans; eauto.
Qed.

(** The rows a claim written by the form adds to the joins on Receiver_ID:
    none, its Receiver_ID being a BLOB. *)
Lemma form_claim_joins_no_receiver conn new_id f receiver_id s now :
  claims_listings_receivers
    (set_claims
       (claims conn
        ++ [mkClaim new_id f (adapt (numpy_int64 receiver_id)) s
                    (strftime_ymd_hms now)]) conn)
  = claims_listings_receivers conn.
Proof.
  unfold claims_listings_receivers. rewrite claims_listings_snoc.
  unfold set_claims. cbn [receivers]. rewrite inner_join_app_l.
  rewrite (inner_join_none _ (inner_join _ [_] _)); [apply app_nil_r|].
  intros [c fl] r Hin _. apply inner_join_In in Hin as [[<-|[]] _].
  reflexivity.
Qed.

(** X8. A claim submitted through the form never shows in the claims
    history, for a stored listing either: the handler binds the Receiver_ID
    cell of the selected row, which is stored as a BLOB and joins no
    receiver.  The history, the claims-by-receiver-type report and the
    top-receivers report are what they were before the claim, although the
    claim is stored; the history comes latest timestamp first. *)
Theorem form_claim_is_absent_from_history :
  forall conn new_id claim_food_id selected_receiver_row claim_status now,
    let after :=
      snd (run (claim_form_submit new_id claim_food_id
                  (numpy_int64 (r_Receiver_ID selected_receiver_row))
                  claim_status now) conn) in
    claims_display_query after = claims_display_query conn
    /\ get_claims_by_receiver_type_sql after
       = get_claims_by_receiver_type_sql conn
    /\ get_top_receivers_by_claimed_food_sql after
       = get_top_receivers_by_claimed_food_sql conn
    /\ (In claim_food_id (map fl_Food_ID (food_listings conn)) ->
        map c_Claim_ID (claims after) = map c_Claim_ID (claims conn) ++ [new_id])
    /\ StronglySorted (fun a b => text_le (h_Timestamp b) (h_Timestamp a))
                      (claims_display_query after)
    /\ claims_display_query
         (snd (run (claim_form_submit 2 1 (numpy_int64 1) "Completed" noon0)
                   one_listing_store))
       = [mkHistoryRow 1 "Rice" "R1" "Pending" "2025-03-10 12:00:00"].
Proof.
  intros conn new_id f r s now after. subst after.
  rewrite claim_form_submit_store.
  destruct (Z.eqb_spec
              (sql_count (fun x => fl_Food_ID x =? f) (food_listings conn)) 0)
    as [E|E].
  - repeat split; try apply history_sorted.
    intros H. apply food_exists_zero in E. contradiction.
  - unfold claims_display_query, get_top_receivers_by_claimed_food_sql.
    rewrite form_claim_joins_no_receiver.
    split; [reflexivity|]. split; [|split; [reflexivity|split; [|split]]].
    + unfold get_claims_by_receiver_type_sql, set_claims.
      cbn [claims receivers]. rewrite inner_join_app_l.
      rewrite (inner_join_none _ [_]); [now rewrite app_nil_r|].
      intros c r' [<-|[]] _. reflexivity.
    + intros _. unfold set_claims. cbn [claims]. now rewrite map_app.
    + apply (history_sorted conn).
    + reflexivity.
Qed.

(** X9. After a listing was deleted, a claim for its Food_ID is refused: the
    claim form reports the invalid Food ID and stores nothing. *)
Theorem claim_on_deleted_listing_is_refused :
  forall conn food_id new_id claim_receiver_id claim_status now,
    let deleted := snd (run (delete_food_listing_sql food_id) conn) in
    run (claim_form_submit new_id food_id claim_receiver_id claim_status now)
        deleted
    = (Failure InvalidReference, deleted).
Proof.
  intros conn i new_id r s now deleted.
  apply claim_form_submit_absent. subst deleted.
  rewrite delete_food_listing_sql_run. simpl. rewrite in_map_iff.
  intros [fl [E Hin]]. apply filter_In in Hin as [_ Hne].
  rewrite E, Z.eqb_refl in Hne. discriminate.
Qed.

(** X10. On a claims table with INTEGER ids, all more than one below the
    greatest 64-bit value, every accepted claim moves the id the page
    computes up by exactly one. *)
Theorem accepted_claim_advances_new_claim_id :
  forall conn new_id claim_food_id claim_receiver_id claim_status now,
    claims_affinity conn = INTEGER ->
    (forall c, In c (claims conn) -> c_Claim_ID c < int64_max - 1) ->
    In claim_food_id (map fl_Food_ID (food_listings conn)) ->
    new_claim_id conn = Success new_id ->
    new_claim_id
      (snd (run (claim_form_submit new_id claim_food_id claim_receiver_id
                                   claim_status now) conn))
    = Success (new_id + 1).
Proof.
  intros conn new_id f r s now Ha Hb Hin Hn.
  rewrite claim_form_submit_stored by exact Hin. cbn [snd].
  set (c := mkClaim new_id f (adapt r) s (strftime_ymd_hms now)).
  set (after := set_claims (claims conn ++ [c]) conn).
  assert (Hlt : forall c', In c' (claims conn) -> c_Claim_ID c' < new_id).
  { apply new_claim_id_fresh; [|exact Hn].
    intros c' Hc'. specialize (Hb c' Hc'). lia. }
  assert (Hnew : new_id < int64_max).
  { destruct (claims conn) as [|c0 cs] eqn:Hc.
    - rewrite new_claim_id_empty in Hn by exact Hc. injection Hn as <-.
      unfold int64_max. lia.
    - rewrite <- Hc in *.
      destruct (new_claim_id_integer conn) as [m [Hm [_ E]]];
        [rewrite Hc; discriminate|exact Ha|].
      rewrite E in Hn. injection Hn as <-.
      apply in_map_iff in Hm as [c' [<- Hc']]. specialize (Hb c' Hc').
      rewrite numpy_add_1_below by lia. lia. }
  destruct (new_claim_id_integer after) as [m [Hm [Hub E]]].
  - unfold after, set_claims. cbn [claims]. now destruct (claims conn).
  - exact Ha.
  - rewrite E. f_equal.
    assert (Em : m = new_id).
    { unfold after, set_claims in Hm, Hub. cbn [claims] in Hm, Hub.
      assert (Hc : In c (claims conn ++ [c]))
        by (apply in_or_app; right; now left).
      specialize (Hub c Hc).
      rewrite map_app, in_app_iff in Hm. destruct Hm as [Hm|[Hm|[]]].
      - apply in_map_iff in Hm as [c' [<- Hc']]. specialize (Hlt c' Hc').
        simpl in Hub. lia.
      - now symmetry. }
    rewrite Em. now apply numpy_add_1_below.
Qed.

Lemma accepted_claim_advances_new_claim_id_witness :
  new_claim_id
    (snd (run (claim_form_submit 2 1 (numpy_int64 1) "Pending" noon0)
              one_listing_store))
  = Success 3.
Proof.
  apply (accepted_claim_advances_new_claim_id one_listing_store 2 1).
  - reflexivity.
  - intros c [<-|[]]. vm_compute. reflexivity.
  - now left.
  - reflexivity.
Defined.

(* ================================================================= *)
(** ** Adding, updating and deleting listings *)

Lemma max_food_id_numpy conn m :
  max_food_id conn = cell_int (numpy_int64 m) ->
  food_listings_affinity conn = INTEGER
  /\ In m (map fl_Food_ID (food_listings conn))
  /\ forall fl, In fl (food_listings conn) -> fl_Food_ID fl <= m.
Proof.
  intros H.
  assert (Hne : food_listings conn <> []).
  { intros E. unfold max_food_id in H. rewrite E in H. discriminate. }
  destruct (food_listings_affinity conn) eqn:Ha.
  - destruct (max_food_id_integer conn Hne Ha) as [m' [E [Hin Hub]]].
    rewrite E in H. injection H as <-. auto.
  - pose proof (max_food_id_text conn Hne Ha) as E.
    unfold new_food_id_min_value in E. rewrite H in E. discriminate.
Qed.

(** X11. Ids are reused: once the listing with the greatest Food_ID is
    deleted, every remaining id is smaller and the add-listing form accepts
    that id again (for a greatest id of at least 1). *)
Theorem greatest_food_id_is_offered_again_after_delete :
  forall conn m name quantity expiry p food_type meal_type,
    max_food_id conn = cell_int (numpy_int64 m) ->
    1 <= m ->
    1 <= quantity ->
    let deleted := snd (run (delete_food_listing_sql m) conn) in
    (forall fl, In fl (food_listings deleted) -> fl_Food_ID fl < m)
    /\ (exists min_value,
           new_food_id_min_value deleted = Success min_value
           /\ min_value <= m)
    /\ offered deleted
         (AddListing m name quantity expiry p food_type meal_type) = true.
Proof.
  intros conn m name q e p ft mt Hmax Hm Hq deleted.
  apply max_food_id_numpy in Hmax as (Ha & _ & Hub).
  assert (Hlt : forall fl, In fl (food_listings deleted) -> fl_Food_ID fl < m).
  { intros fl Hfl. subst deleted.
    rewrite delete_food_listing_sql_run in Hfl. simpl in Hfl.
    apply filter_In in Hfl as [Hfl Hne].
    apply negb_true_iff, Z.eqb_neq in Hne. specialize (Hub fl Hfl). lia. }
  assert (Hmin : exists min_value,
             new_food_id_min_value deleted = Success min_value
             /\ min_value <= m).
  { destruct (food_listings deleted) as [|fl0 fls] eqn:Hf.
    - exists 1. split; [now apply new_food_id_min_value_empty|lia].
    - rewrite <- Hf in *.
      destruct (max_food_id_integer deleted) as [m' [E [Hin _]]].
      + rewrite Hf. discriminate.
      + subst deleted. now rewrite delete_food_listing_sql_run.
      + exists (numpy_add_1 m'). unfold new_food_id_min_value. rewrite E.
        split; [reflexivity|].
        apply in_map_iff in Hin as [fl [<- Hfl]]. specialize (Hlt fl Hfl).
        unfold numpy_add_1, int64_min.
        destruct (fl_Food_ID fl <? int64_max); lia. }
  split; [exact Hlt|]. split; [exact Hmin|].
  destruct Hmin as [min_value [E Hle]]. simpl. rewrite E.
  apply andb_true_iff. split; apply Z.leb_le; lia.
Qed.

Lemma greatest_food_id_is_offered_again_after_delete_witness :
  offered (snd (run (delete_food_listing_sql 2) two_listing_store))
          (AddListing 2 "Soup" 4 day0 P1 "Vegan" "Dinner") = true.
Proof.
  apply (greatest_food_id_is_offered_again_after_delete
           two_listing_store 2 "Soup" 4 day0 P1 "Vegan" "Dinner");
    [reflexivity|apply Z.leb_le; reflexivity|apply Z.leb_le; reflexivity].
Defined.

Lemma update_row_idem i n q e ft mt fl :
  update_row i n q e ft mt (update_row i n q e ft mt fl)
  = update_row i n q e ft mt fl.
Proof.
  unfold update_row at 2. destruct (fl_Food_ID fl =? i) eqn:E.
  - unfold update_row. simpl. now rewrite E.
  - unfold update_row. now rewrite E.
Qed.

(** X12. Updating a listing is idempotent, and it touches nothing but the
    five updated columns of the rows with that Food_ID: a second identical
    update leaves the store as the first left it, the other three relations
    are unchanged, and every row keeps its Food_ID, Provider_ID,
    Provider_Type and Location. *)
Theorem update_listing_is_idempotent_and_keeps_provider_columns :
  forall conn food_id food_name quantity expiry_date food_type meal_type,
    let update :=
      update_food_listing_sql food_id food_name quantity expiry_date food_type
                              meal_type in
    let updated := snd (run update conn) in
    run update updated = (Success tt, updated)
    /\ providers updated = providers conn
    /\ receivers updated = receivers conn
    /\ claims updated = claims conn
    /\ map (fun fl => (fl_Food_ID fl, fl_Provider_ID fl, fl_Provider_Type fl,
                       fl_Location fl)) (food_listings updated)
       = map (fun fl => (fl_Food_ID fl, fl_Provider_ID fl, fl_Provider_Type fl,
                         fl_Location fl)) (food_listings conn)
    /\ forall fl, In fl (food_listings conn) -> fl_Food_ID fl <> food_id ->
                  In fl (food_listings updated).
Proof.
  intros conn i n q e ft mt update updated. subst update updated.
  unfold run, update_food_listing_sql, execute_dml, set_food_listings. simpl.
  split; [|split; [reflexivity|split; [reflexivity|split; [reflexivity|split]]]].
  - f_equal. f_equal. rewrite map_map. apply map_ext.
    intros fl. apply update_row_idem.
  - rewrite map_map. apply map_ext. intros fl. unfold update_row.
    destruct (fl_Food_ID fl =? i); reflexivity.
  - intros fl Hfl Hne. apply in_map_iff. exists fl. split; [|exact Hfl].
    unfold update_row. apply Z.eqb_neq in Hne. now rewrite Hne.
Qed.

Lemma current_listing_db_map_update i n q e ft mt j l :
  hd_error (filter (fun fl => fl_Food_ID fl =? j)
                   (map (update_row i n q e ft mt) l))
  = option_map (update_row i n q e ft mt)
               (hd_error (filter (fun fl => fl_Food_ID fl =? j) l)).
Proof.
  induction l as [|fl l IH]; simpl; [reflexivity|].
  rewrite update_row_id. destruct (fl_Food_ID fl =? j); [reflexivity|exact IH].
Qed.

(** X13. After an update the listing read back for that Food_ID carries the
    new name, quantity, expiry text, food type and meal type and the provider
    columns it had; the listing read back for any other id is the one read
    before. *)
Theorem updated_listing_reads_back :
  forall conn food_id food_name quantity expiry_date food_type meal_type old,
    current_listing_db food_id conn = Some old ->
    let updated :=
      snd (run (update_food_listing_sql food_id food_name quantity expiry_date
                                        food_type meal_type) conn) in
    current_listing_db food_id updated
    = Some (mkFoodListing food_id food_name quantity (strftime_ymd expiry_date)
                          (fl_Provider_ID old) (fl_Provider_Type old)
                          (fl_Location old) food_type meal_type)
    /\ forall other, other <> food_id ->
                     current_listing_db other updated
                     = current_listing_db other conn.
Proof.
  intros conn i n q e ft mt old Hold updated. subst updated.
  unfold current_listing_db in *.
  unfold run, update_food_listing_sql, execute_dml, set_food_listings. simpl.
  rewrite !current_listing_db_map_update. split.
  - rewrite Hold. simpl. unfold update_row.
    assert (Hid : fl_Food_ID old = i).
    { destruct (filter (fun fl => fl_Food_ID fl =? i) (food_listings conn))
        as [|x xs] eqn:E; [discriminate|].
      simpl in Hold. injection Hold as ->.
      assert (Hin : In old (old :: xs)) by now left.
      rewrite <- E in Hin. apply filter_In in Hin as [_ H].
      now apply Z.eqb_eq. }
    rewrite Hid, Z.eqb_refl. reflexivity.
  - intros other Hne. rewrite current_listing_db_map_update.
    destruct (filter (fun fl => fl_Food_ID fl =? other) (food_listings conn))
      as [|x xs] eqn:E; [reflexivity|]. simpl. f_equal.
    assert (Hin : In x (x :: xs)) by now left.
    rewrite <- E in Hin. apply filter_In in Hin as [_ H].
    apply Z.eqb_eq in H. unfold update_row.
    assert (Hx : (fl_Food_ID x =? i) = false) by (apply Z.eqb_neq; lia).
    now rewrite Hx.
Qed.

Lemma updated_listing_reads_back_witness :
  current_listing_db 1
    (snd (run (update_food_listing_sql 1 "Pilaf" 9 day0 "Vegan" "Dinner")
              two_listing_store))
  = Some (mkFoodListing 1 "Pilaf" 9 "2025-03-10" (Integer 1) "Restaurant"
                        "CityA" "Vegan" "Dinner").
Proof.
  destruct (updated_listing_reads_back
              two_listing_store 1 "Pilaf" 9 day0 "Vegan" "Dinner"
              (rice 1 "2025-03-20") eq_refl) as [H _].
  exact H.
Defined.

(** X14. A listing added under a Food_ID that is not stored reads back with
    exactly the supplied columns.  Added under a Food_ID that is stored
    already, it is shadowed: the row read back for that id is the one read
    before the insert. *)
Theorem added_listing_reads_back_unless_shadowed :
  forall conn food_id food_name quantity expiry_date provider_id provider_type
         location food_type meal_type,
    let added :=
      snd (run (add_food_listing_sql food_id food_name quantity expiry_date
                  provider_id provider_type location food_type meal_type)
               conn) in
    (~ In food_id (map fl_Food_ID (food_listings conn)) ->
     current_listing_db food_id added
     = Some (mkFoodListing food_id food_name quantity
                           (strftime_ymd expiry_date) (adapt provider_id)
                           provider_type location food_type meal_type))
    /\ (In food_id (map fl_Food_ID (food_listings conn)) ->
        current_listing_db food_id added = current_listing_db food_id conn
        /\ current_listing_db food_id conn <> None).
Proof.
  intros conn i n q e p pt l ft mt added. subst added.
  unfold current_listing_db, run, add_food_listing_sql, execute_dml,
    set_food_listings. simpl. rewrite filter_app. simpl.
  rewrite Z.eqb_refl. split.
  - intros Hnew. rewrite filter_none; [reflexivity|].
    intros fl Hfl. apply Z.eqb_neq. intros E. apply Hnew.
    rewrite <- E. now apply in_map.
  - intros Hold. apply in_map_iff in Hold as [fl [E Hfl]].
    assert (Hin : In fl (filter (fun x => fl_Food_ID x =? i)
                                (food_listings conn)))
      by (apply filter_In; split; [exact Hfl|now apply Z.eqb_eq]).
    destruct (filter (fun x => fl_Food_ID x =? i) (food_listings conn));
      [destruct Hin|]. simpl. split; [reflexivity|discriminate].
Qed.

Lemma added_listing_reads_back_unless_shadowed_witness :
  current_listing_db 3
    (snd (run (add_food_listing_sql 3 "Soup" 4 day0 (py_int 1) "Restaurant"
                                    "CityA" "Vegan" "Dinner")
              two_listing_store))
  = Some (mkFoodListing 3 "Soup" 4 "2025-03-10" (Integer 1) "Restaurant"
                        "CityA" "Vegan" "Dinner")
  /\ current_listing_db 1
       (snd (run (add_food_listing_sql 1 "Soup" 4 day0 (py_int 1) "Restaurant"
                                       "CityA" "Vegan" "Dinner")
                 two_listing_store))
     = Some (rice 1 "2025-03-20").
Proof.
  destruct (added_listing_reads_back_unless_shadowed
              two_listing_store 3 "Soup" 4 day0 (py_int 1) "Restaurant" "CityA"
              "Vegan" "Dinner") as [Hnew _].
  destruct (added_listing_reads_back_unless_shadowed
              two_listing_store 1 "Soup" 4 day0 (py_int 1) "Restaurant" "CityA"
              "Vegan" "Dinner") as [_ Hold].
  split.
  - apply Hnew. simpl. intuition discriminate.
  - destruct Hold as [-> _]; [simpl; now left|reflexivity].
Defined.

(* ================================================================= *)
(** ** From the add-listing form to the Claim Food page *)

Lemma add_listing_form_submit_accepted conn i n q e p ft mt :
  n <> ""%string -> 1 <= q ->
  run (add_listing_form_submit i n q e p ft mt) conn
  = (Success tt,
     set_food_listings
       (food_listings conn
        ++ [mkFoodListing i n q (strftime_ymd e)
                          (Blob (int64_bytes (p_Provider_ID p))) (p_Type p)
                          (p_City p) ft mt]) conn).
Proof.
  intros Hn Hq. unfold run, add_listing_form_submit.
  assert (Hv : String.eqb n "" || (q <=? 0) = false).
  { apply orb_false_iff. split; [now apply String.eqb_neq|].
    apply Z.leb_gt. lia. }
  rewrite Hv. reflexivity.
Qed.

(** The rows a listing written by the form adds to the join with providers:
    none, its Provider_ID being a BLOB. *)
Lemma form_listing_joins_no_provider conn (fl : FoodListing) bytes :
  fl_Provider_ID fl = Blob bytes ->
  inner_join (fun fl p => id_eqb (fl_Provider_ID fl) (p_Provider_ID p))
             (food_listings (set_food_listings (food_listings conn ++ [fl]) conn))
             (providers (set_food_listings (food_listings conn ++ [fl]) conn))
  = inner_join (fun fl p => id_eqb (fl_Provider_ID fl) (p_Provider_ID p))
               (food_listings conn) (providers conn).
Proof.
  intros Hb. unfold set_food_listings. cbn [food_listings providers].
  rewrite inner_join_app_l.
  rewrite (inner_join_none _ [fl]); [apply app_nil_r|].
  intros fl' p' [<-|[]] _. now rewrite Hb.
Qed.

(** X15. The add-listing form refuses an empty food name without touching
    the store.  A listing it accepts is stored with the selected provider's
    Type and City and with the Provider_ID cell of the selected row, which is
    kept as a BLOB and joins no provider: the new listing never shows on the
    Claim Food page, whatever the filters, nor in the donated-by-provider
    report. *)
Theorem form_listing_is_absent_from_filtered_table :
  forall conn new_food_id new_food_name new_quantity new_expiry_date p
         new_food_type new_meal_type sc spt sft smt,
    let submit name :=
      add_listing_form_submit new_food_id name new_quantity new_expiry_date p
                              new_food_type new_meal_type in
    run (submit ""%string) conn = (Failure ValidationFailure, conn)
    /\ (new_food_name <> ""%string -> 1 <= new_quantity ->
        run (submit new_food_name) conn
        = (Success tt,
           set_food_listings
             (food_listings conn
              ++ [mkFoodListing new_food_id new_food_name new_quantity
                    (strftime_ymd new_expiry_date)
                    (Blob (int64_bytes (p_Provider_ID p))) (p_Type p)
                    (p_City p) new_food_type new_meal_type]) conn))
    /\ filter_query sc spt sft smt (snd (run (submit new_food_name) conn))
       = filter_query sc spt sft smt conn
    /\ get_total_food_donated_by_provider_sql
         (snd (run (submit new_food_name) conn))
       = get_total_food_donated_by_provider_sql conn
    /\ map l_Food_Name
         (filter_query "All" "All" "All" "All"
            (snd (run (add_listing_form_submit 3 "Soup" 4 day0 P1 "Vegan"
                                               "Dinner") two_listing_store)))
       = ["Rice"; "Bread"]%string.
Proof.
  intros conn i n q e p ft mt sc spt sft smt submit. subst submit.
  split; [reflexivity|].
  split; [intros Hn Hq; now apply add_listing_form_submit_accepted|].
  assert (Hafter :
            snd (run (add_listing_form_submit i n q e p ft mt) conn) = conn
            \/ snd (run (add_listing_form_submit i n q e p ft mt) conn)
               = set_food_listings
                   (food_listings conn
                    ++ [mkFoodListing i n q (strftime_ymd e)
                          (Blob (int64_bytes (p_Provider_ID p))) (p_Type p)
                          (p_City p) ft mt]) conn).
  { unfold run, add_listing_form_submit.
    destruct (String.eqb n "" || (q <=? 0)); [now left|now right]. }
  destruct Hafter as [->| ->]; [repeat split|].
  unfold filter_query, get_total_food_donated_by_provider_sql.
  rewrite (form_listing_joins_no_provider conn
             (mkFoodListing i n q (strftime_ymd e)
                            (Blob (int64_bytes (p_Provider_ID p))) (p_Type p)
                            (p_City p) ft mt)
             (int64_bytes (p_Provider_ID p)) eq_refl).
  repeat split.
Qed.

(** X16. The options of the location filter after 'All' are exactly the
    locations of the listings, each once, in ascending order; when the
    listings refer to stored providers, every city offered leads to a
    non-empty table. *)
Theorem offered_location_yields_rows :
  forall conn,
    (forall city,
        In city (all_locations conn)
        <-> In city (map fl_Location (food_listings conn)))
    /\ NoDup (all_locations conn)
    /\ StronglySorted text_le (all_locations conn)
    /\ (providers_intact conn ->
        forall city,
          In city (all_locations conn) ->
          filter_query city "All" "All" "All" conn <> []).
Proof.
  intros conn.
  split; [intros city; apply distinct_keys_In|].
  split; [apply distinct_keys_NoDup|]. split.
  - unfold all_locations, distinct_sorted.
    apply (order_by_strongly_sorted String.leb).
    + apply String.leb_total.
    + apply string_leb_trans.
  - intros [Hnd Hall] city Hcity.
    assert (Hloc : In city (map fl_Location (food_listings conn)))
      by (apply (proj1 (distinct_keys_In _ _)); exact Hcity).
    apply in_map_iff in Hloc as [fl [E Hfl]].
    pose proof (Hall fl Hfl) as Hp. apply in_map_iff in Hp as [p [Ep Hp]].
    assert (Hin : In (select_listing_row (fl, p))
                     (filter_query city "All" "All" "All" conn)).
    { eapply Permutation_in; [apply Permutation_sym, filter_query_perm|].
      apply in_map. apply filter_In. split.
      - apply inner_join_In. split; [exact Hfl|split; [exact Hp|]].
        apply id_eqb_spec. congruence.
      - simpl. unfold listing_matchesb.
        rewrite !andb_true_iff, !selection_matchesb_spec.
        unfold selection_matches. auto. }
    intros Hnil. rewrite Hnil in Hin. destruct Hin.
Qed.

Lemma offered_location_yields_rows_witness :
  all_locations two_listing_store = ["CityA"; "CityB"]%string
  /\ filter_query "CityB" "All" "All" "All" two_listing_store <> [].
Proof.
  split; [reflexivity|].
  destruct (offered_location_yields_rows two_listing_store) as (_ & _ & _ & H).
  apply H.
  - split.
    + simpl. repeat constructor; simpl; intuition discriminate.
    + intros fl [<-|[<-|[]]]; simpl; auto.
  - simpl. auto.
Defined.

(* ================================================================= *)
(** ** Deleting a listing and the claim reports *)

Lemma claims_listings_count conn :
  NoDup (map fl_Food_ID (food_listings conn)) ->
  count_rows (claims_listings conn)
  = count_rows
      (filter (fun c => existsb (fun fl => c_Food_ID c =? fl_Food_ID fl)
                                (food_listings conn))
              (claims conn)).
Proof.
  intros Hnd. unfold claims_listings. rewrite <- (count_rows_map fst).
  now rewrite (inner_join_unique_key c_Food_ID fl_Food_ID).
Qed.

Lemma count_rows_split {A : Type} (w : A -> bool) (l : list A) :
  count_rows l
  = count_rows (filter w l) + count_rows (filter (fun x => negb (w x)) l).
Proof.
  unfold count_rows. rewrite (filter_length_split w l). lia.
Qed.

Lemma filter_filter_and {A : Type} (w1 w2 : A -> bool) l :
  filter w1 (filter w2 l) = filter (fun x => w2 x && w1 x) l.
Proof.
  induction l as [|x l IH]; simpl; [reflexivity|].
  destruct (w2 x); simpl; [destruct (w1 x)|]; now rewrite IH.
Qed.

Lemma stored_after_delete (i : Z) (l : list FoodListing) (k : Z) :
  existsb (fun fl => k =? fl_Food_ID fl)
          (filter (fun fl => negb (fl_Food_ID fl =? i)) l)
  = negb (k =? i) && existsb (fun fl => k =? fl_Food_ID fl) l.
Proof.
  induction l as [|fl l IH]; simpl; [now rewrite andb_false_r|].
  destruct (Z.eqb_spec (fl_Food_ID fl) i) as [E|E]; simpl; rewrite IH;
    destruct (Z.eqb_spec k (fl_Food_ID fl)) as [E'|E'];
    destruct (Z.eqb_spec k i) as [Ek|Ek]; simpl;
    try reflexivity; exfalso; congruence.
Qed.

(** X17. Deleting a stored listing takes exactly its claims out of the
    claims-per-food-item report: with Food_ID a key of food_listings, the
    counts of the report add up to what they added up to before, less the
    number of claims on the deleted Food_ID. *)
Theorem deleted_listing_takes_its_claims_out_of_the_report :
  forall conn food_id,
    NoDup (map fl_Food_ID (food_listings conn)) ->
    In food_id (map fl_Food_ID (food_listings conn)) ->
    report_total
      (get_claims_per_food_item_sql
         (snd (run (delete_food_listing_sql food_id) conn)))
    = report_total (get_claims_per_food_item_sql conn)
      - count_rows (filter (fun c => c_Food_ID c =? food_id) (claims conn)).
Proof.
  intros conn i Hnd Hin. unfold get_claims_per_food_item_sql.
  rewrite !aggregate_count_total, delete_food_listing_sql_run.
  rewrite claims_listings_count
    by (simpl; now apply NoDup_map_filter).
  rewrite claims_listings_count by exact Hnd. simpl.
  rewrite (count_rows_split (fun c => c_Food_ID c =? i)
             (filter (fun c => existsb (fun fl => c_Food_ID c =? fl_Food_ID fl)
                                       (food_listings conn))
                     (claims conn))).
  rewrite !filter_filter_and.
  assert (E1 : filter
                 (fun c => existsb (fun fl => c_Food_ID c =? fl_Food_ID fl)
                                   (food_listings conn)
                           && (c_Food_ID c =? i)) (claims conn)
               = filter (fun c => c_Food_ID c =? i) (claims conn)).
  { apply filter_ext. intros c.
    destruct (Z.eqb_spec (c_Food_ID c) i) as [E|E];
      [|now rewrite andb_false_r].
    rewrite andb_true_r. apply existsb_exists.
    apply in_map_iff in Hin as [fl [Efl Hfl]]. exists fl.
    split; [exact Hfl|]. apply Z.eqb_eq. congruence. }
  assert (E2 : filter
                 (fun c => negb (c_Food_ID c =? i)
                           && existsb
                                (fun fl => c_Food_ID c =? fl_Food_ID fl)
                                (filter (fun fl => negb (fl_Food_ID fl =? i))
                                        (food_listings conn)))
                 (claims conn)
               = filter
                   (fun c => existsb (fun fl => c_Food_ID c =? fl_Food_ID fl)
                                     (food_listings conn)
                             && negb (c_Food_ID c =? i)) (claims conn)).
  { apply filter_ext. intros c. rewrite stored_after_delete.
    destruct (c_Food_ID c =? i); simpl; [now rewrite andb_false_r|].
    now rewrite andb_true_r. }
  rewrite E1, E2. lia.
Qed.

Lemma deleted_listing_takes_its_claims_out_of_the_report_witness :
  report_total
    (get_claims_per_food_item_sql
       (snd (run (delete_food_listing_sql 2) two_listing_store)))
  = 1.
Proof.
  rewrite (deleted_listing_takes_its_claims_out_of_the_report
             two_listing_store 2).
  - reflexivity.
  - simpl. repeat constructor; simpl; intuition discriminate.
  - simpl. auto.
Defined.

(* ================================================================= *)
(** ** Worked instances *)

Lemma filter_query_lists_each_matching_listing_once_witness :
  Permutation
    (map l_Food_ID (filter_query "All" "All" "Vegan" "All" two_listing_store))
    [1].
Proof.
  apply (filter_query_lists_each_matching_listing_once
           "All" "All" "Vegan" "All" two_listing_store).
  - simpl. repeat constructor; simpl; intuition discriminate.
  - intros fl [<-|[<-|[]]]; simpl; auto.
Defined.

Lemma added_listing_window_witness :
  In (mkExpiryRow "Soup" 4 "2025-03-17" "CityA"
                  (Blob [1; 0; 0; 0; 0; 0; 0; 0]))
     (get_food_nearing_expiry_sql day0 7
        (snd (run (add_food_listing_sql 3 "Soup" 4 (mkDate 2025 3 17)
                     (numpy_int64 1) "Restaurant" "CityA" "Vegan" "Dinner")
                  two_listing_store))).
Proof.
  assert (V0 : valid_date day0) by date_facts.
  assert (Y0 : four_digit_year day0) by date_facts.
  assert (Y7 : four_digit_year (add_days day0 7)) by date_facts.
  assert (V17 : valid_date (mkDate 2025 3 17)) by date_facts.
  assert (Y17 : four_digit_year (mkDate 2025 3 17)) by date_facts.
  refine (proj2 (added_listing_window
                   two_listing_store day0 7 3 "Soup" 4 (mkDate 2025 3 17)
                   (numpy_int64 1) "Restaurant" "CityA" "Vegan" "Dinner"
                   V0 Y0 Y7 V17 Y17) _).
  split; [apply Z.ltb_lt|apply Z.leb_le]; vm_compute; reflexivity.
Defined.

Lemma per_city_row_counts_witness :
  exists city,
    Some "CityA"%string = Some city
    /\ (exists p, In p [P1; P2] /\ p_City p = city)
    /\ 1 = Z.of_nat (List.length (nodup Z.eq_dec
           (map p_Provider_ID
              (filter (fun p => String.eqb (p_City p) city) [P1; P2]))))
    /\ 1 = Z.of_nat (List.length (nodup Z.eq_dec
           (map r_Receiver_ID
              (filter (fun r => String.eqb (r_City r) city) [R1])))).
Proof.
  apply (per_city_row_counts (mkStore [P1; P2] [R1] [] [] TEXT TEXT)
                             (mkCityRow (Some "CityA"%string) 1 1)).
  simpl. now left.
Defined.
